(** * Gloton Urbano: the authenticated API client

    A shallow embedding of the session layer of the app:
    - [StorageService] (src/unnamed/part_004, the in-memory key-value store
      imported as ./StorageService),
    - [ApiService] (src/services/ApiService.js, the HTTP client),
    - [EnhancedApiService] (src/services/EnhancedApiService.js, token
      lifecycle, refresh-and-retry, cached getters, permission checks),
    - [AuthProvider]'s role and permission checks (src/unnamed/part_003),
    - [AnalyticsService] (the second class of src/services/ApiService.js).

    JavaScript values are modelled by [jsval]; an async method that runs to
    completion without other callers interleaving is a function in the
    state-and-error monad [M]: the state holds the storage map, the fields
    of the singletons, the scripted answers of the remote server and the log
    of the endpoints that were fetched. Interleavings of concurrent callers
    (single-flight refresh, concurrent [initialize]) get their own small
    step models at the end of the file. *)

From Stdlib Require Import QArith ZArith.
From stdpp Require Import base gmap strings list pretty.

Local Open Scope string_scope.
#[local] Set Warnings "-register-all".

(** ** JavaScript values *)

(** A JS number: finite numbers as rationals, plus NaN and the infinities
    (the comparisons below follow the IEEE rules of [<] and [>]). *)
Inductive jsnum :=
| NFin (q : Q)
| NNaN
| NPosInf
| NNegInf.

(** Strings are Stdlib strings; one [ascii] stands for one UTF-16 code unit
    of [String.prototype.length]. *)
Inductive jsval :=
| JUndef
| JNull
| JBool (b : bool)
| JNum (n : jsnum)
| JStr (s : string)
| JObj (fields : list (string * jsval))
| JArr (xs : list jsval).

Definition jint (z : Z) : jsval := JNum (NFin (inject_Z z)).

(** [a < b] on numbers. *)
Definition num_lt (a b : jsnum) : bool :=
  match a, b with
  | NFin x, NFin y => negb (Qle_bool y x)
  | NNaN, _ | _, NNaN => false
  | NNegInf, NNegInf => false
  | NNegInf, _ => true
  | NPosInf, _ => false
  | _, NPosInf => true
  | _, NNegInf => false
  end.

(** Boolean coercion ([if (v)], [!v], [a || b]). *)
Definition truthy (v : jsval) : bool :=
  match v with
  | JUndef | JNull => false
  | JBool b => b
  | JNum (NFin q) => negb (Qeq_bool q 0)
  | JNum NNaN => false
  | JNum _ => true
  | JStr s => negb (String.eqb s "")
  | JObj _ | JArr _ => true
  end.

(** [ToNumber], as used by [>] on the [length] values of the analytics
    validation: digit strings are read as integers, other strings give
    NaN. *)
Fixpoint digits_value (s : string) (acc : Z) : option Z :=
  match s with
  | EmptyString => Some acc
  | String c s' =>
      let n := Z.of_nat (Ascii.nat_of_ascii c) in
      if (48 <=? n)%Z && (n <=? 57)%Z
      then digits_value s' (acc * 10 + (n - 48))%Z
      else None
  end.

Definition to_number (v : jsval) : jsnum :=
  match v with
  | JUndef => NNaN
  | JNull => NFin 0
  | JBool b => NFin (if b then 1 else 0)
  | JNum n => n
  | JStr "" => NFin 0
  | JStr s => match digits_value s 0 with
              | Some z => NFin (inject_Z z)
              | None => NNaN
              end
  | JObj _ | JArr _ => NNaN
  end.

(** [a > b] between a value and a number literal. *)
Definition js_gt (a : jsval) (b : jsnum) : bool := num_lt b (to_number a).

(** The least [k] (from [k0], at most [fuel] tries) with [d] dividing
    [10^k]: the number of decimals of a fraction with denominator [d]. *)
Fixpoint find_pow10 (d : Z) (k fuel : nat) : option nat :=
  match fuel with
  | O => None
  | S f => if ((10 ^ Z.of_nat k) mod d =? 0)%Z then Some k else find_pow10 d (S k) f
  end.

Fixpoint zeros (n : nat) : string :=
  match n with O => "" | S n' => String.append "0" (zeros n') end.

(** [Number.prototype.toString()] in decimal notation: integers and exact
    decimal fractions (up to 22 decimals) are printed as JS prints them in
    the range [1e-6 <= |x| < 1e21]; the exponent form JS uses outside that
    range, and the rounding of values a double cannot hold, are not
    modelled (other rationals print as a fraction). *)
Definition num_to_string (n : jsnum) : string :=
  match n with
  | NFin q =>
      let q' := Qred q in
      let a := Qnum q' in
      let d := Zpos (Qden q') in
      if (d =? 1)%Z then pretty a
      else match find_pow10 d 0 23 with
           | Some k =>
               let m := (Z.abs a * (10 ^ Z.of_nat k / d))%Z in
               let fp := pretty (m mod 10 ^ Z.of_nat k)%Z in
               String.append (if (a <? 0)%Z then "-" else "")
                 (String.append (pretty (m / 10 ^ Z.of_nat k)%Z)
                    (String.append "."
                       (String.append (zeros (Nat.sub k (String.length fp))) fp)))
           | None => String.append (pretty a) (String.append "/" (pretty d))
           end
  | NNaN => "NaN"
  | NPosInf => "Infinity"
  | NNegInf => "-Infinity"
  end.

(** [String(v)]; an array is joined with commas, its [null] and
    [undefined] elements giving empty strings. *)
Fixpoint js_to_string (v : jsval) : string :=
  match v with
  | JUndef => "undefined"
  | JNull => "null"
  | JBool true => "true"
  | JBool false => "false"
  | JNum n => num_to_string n
  | JStr s => s
  | JObj _ => "[object Object]"
  | JArr xs =>
      (fix go (l : list jsval) : string :=
         let elem x := match x with JUndef | JNull => "" | _ => js_to_string x end in
         match l with
         | [] => ""
         | [x] => elem x
         | x :: l' => String.append (elem x) (String.append "," (go l'))
         end) xs
  end.

(** [s.includes(t)]. *)
Fixpoint str_includes (s t : string) : bool :=
  if String.prefix t s then true
  else match s with
       | EmptyString => false
       | String _ s' => str_includes s' t
       end.

(** [v !== s] negated, for a string literal [s] (strict equality). *)
Definition strict_eq_str (v : jsval) (s : string) : bool :=
  match v with JStr t => String.eqb t s | _ => false end.

(** ** Errors, state and the monad *)

(** An [Error] thrown by [new Error(msg)], or the [TypeError] the engine
    raises (reading a property of [null]/[undefined], calling a
    non-function). *)
Inductive jserr :=
| EError (msg : string)
| ETypeError (msg : string).

Definition err_message (e : jserr) : string :=
  match e with EError m => m | ETypeError m => m end.

Inductive result (A : Type) :=
| Ok (a : A)
| Err (e : jserr).
Arguments Ok {A} a.
Arguments Err {A} e.

(** One answer of the remote server to a [fetch]: an HTTP response with its
    status and parsed JSON body, or a transport failure. *)
Inductive netresp :=
| Resp (status : Z) (body : jsval)
| NetDown (msg : string).

(** The local time zone of the device, as the Date methods see it:
    [tz_offset t] is LocalTZA(t, true), the offset in ms of local time at
    the UTC instant [t]; [tz_utc l] is UTC(l), the instant of the local
    time [l], with the engine's choice for local times skipped or repeated
    by a daylight-saving change. *)
Record TimeZone := mkTZ {
  tz_offset : Z -> Z;
  tz_utc : Z -> Z
}.

(** A zone with the fixed offset [c] ms (no daylight saving). *)
Definition fixed_zone (c : Z) : TimeZone := mkTZ (fun _ => c) (fun l => (l - c)%Z).
Definition utc_zone : TimeZone := fixed_zone 0.

Record St := mkSt {
  store : gmap string jsval;    (** StorageService.memoryStorage *)
  api_token : jsval;            (** apiService.token *)
  api_auth : bool;              (** apiService.isAuthenticated *)
  is_init : bool;               (** enhancedApiService.isInitialized *)
  now : Z;                      (** Date.now(), in ms *)
  zone : TimeZone;              (** the device's local time zone *)
  script : list netresp;        (** answers the server will give, in order *)
  netlog : list string          (** endpoints fetched so far, in order *)
}.

Definition set_store (m : gmap string jsval) (s : St) : St :=
  mkSt m (api_token s) (api_auth s) (is_init s) (now s) (zone s) (script s) (netlog s).
Definition set_token (t : jsval) (a : bool) (s : St) : St :=
  mkSt (store s) t a (is_init s) (now s) (zone s) (script s) (netlog s).
Definition set_init (b : bool) (s : St) : St :=
  mkSt (store s) (api_token s) (api_auth s) b (now s) (zone s) (script s) (netlog s).

Definition M (A : Type) : Type := St -> result A * St.

Definition ret {A} (a : A) : M A := fun s => (Ok a, s).
Definition throw {A} (e : jserr) : M A := fun s => (Err e, s).
Definition bind {A B} (m : M A) (k : A -> M B) : M B :=
  fun s => match m s with
           | (Ok a, s') => k a s'
           | (Err e, s') => (Err e, s')
           end.
(** [try { m } catch (e) { h(e) }]: effects of [m] before the throw stay. *)
Definition catch_ {A} (m : M A) (h : jserr -> M A) : M A :=
  fun s => match m s with
           | (Err e, s') => h e s'
           | r => r
           end.
Definition lift {A} (r : result A) : M A := fun s => (r, s).

Notation "x <-- m ;; k" := (bind m (fun x => k))
  (at level 100, m at next level, right associativity).
Notation "m ;;; k" := (bind m (fun _ => k))
  (at level 100, right associativity).

(** [obj[k]]. *)
Definition get_prop (v : jsval) (k : string) : result jsval :=
  match v with
  | JUndef => Err (ETypeError (String.append "Cannot read property of undefined: " k))
  | JNull => Err (ETypeError (String.append "Cannot read property of null: " k))
  | JObj fs => Ok (match list_find (fun kv => kv.1 = k) fs with
                   | Some (_, (_, x)) => x
                   | None => JUndef
                   end)
  | JStr s => Ok (if String.eqb k "length" then jint (Z.of_nat (String.length s)) else JUndef)
  | JArr xs => Ok (if String.eqb k "length" then jint (Z.of_nat (length xs)) else JUndef)
  | _ => Ok JUndef
  end.

Definition prop (v : jsval) (k : string) : M jsval := lift (get_prop v k).

(** ** StorageService (src/unnamed/part_004) *)
Module StorageService.

Definition key_authToken := "gu_auth_token".
Definition key_refreshToken := "gu_refresh_token".
Definition key_tokenExpiry := "gu_token_expiry".
Definition key_userProfile := "gu_user_profile".
Definition key_userRoles := "gu_user_roles".
Definition key_userPermissions := "gu_user_permissions".

(** [setItem]: [memoryStorage.set(key, value); return true]. *)
Definition setItem (key : string) (v : jsval) : M jsval :=
  fun s => (Ok (JBool true), set_store (<[key := v]> (store s)) s).

(** [getItem]: [memoryStorage.get(key) || null]. *)
Definition getItem (key : string) : M jsval :=
  fun s => (Ok (match store s !! key with
                | Some v => if truthy v then v else JNull
                | None => JNull
                end), s).

(** [removeItem]: [memoryStorage.delete(key); return true]. *)
Definition removeItem (key : string) : M jsval :=
  fun s => (Ok (JBool true), set_store (delete key (store s)) s).

Definition storeAuthToken (t : jsval) := setItem key_authToken t.
Definition getAuthToken := getItem key_authToken.
Definition storeUserProfile (p : jsval) := setItem key_userProfile p.
Definition getUserProfile := getItem key_userProfile.
Definition storeUserRoles (r : jsval) := setItem key_userRoles r.
Definition getUserRoles := getItem key_userRoles.
Definition storeUserPermissions (p : jsval) := setItem key_userPermissions p.
Definition getUserPermissions := getItem key_userPermissions.
(** [storeTokenExpiry(expiry)]: the ISO-8601 string of the Date is
    represented by its epoch milliseconds (the string is always truthy, the
    number is not for the epoch itself: an expiry at instant 0 is outside
    what this representation covers). *)
Definition storeTokenExpiry (ms : Z) := setItem key_tokenExpiry (jint ms).

(** [isTokenExpired]: [!expiry -> true], else [new Date() > expiry]; a
    stored value that is not a number is an Invalid Date, against which
    every comparison is false. *)
Definition isTokenExpired : M bool :=
  e <-- getItem key_tokenExpiry ;;
  fun s => (Ok (if truthy e
                then match e with
                     | JNum n => num_lt n (NFin (inject_Z (now s)))
                     | _ => false
                     end
                else true), s).

(** The methods of the class reachable as [this.<name>] from
    [clearAuthData]: the class defines removeAuthToken, removeRefreshToken,
    removeUserProfile, removeUserRoles and removeUserPermissions, and no
    removeTokenExpiry. *)
Definition method (name : string) : option (M jsval) :=
  if String.eqb name "removeAuthToken" then Some (removeItem key_authToken)
  else if String.eqb name "removeRefreshToken" then Some (removeItem key_refreshToken)
  else if String.eqb name "removeUserProfile" then Some (removeItem key_userProfile)
  else if String.eqb name "removeUserRoles" then Some (removeItem key_userRoles)
  else if String.eqb name "removeUserPermissions" then Some (removeItem key_userPermissions)
  else None.

(** Evaluating the array literal of [clearAuthData] left to right: each
    [this.m()] runs its (synchronous) body; calling a missing method throws
    a TypeError at once. *)
Fixpoint start_calls (names : list string) : M unit :=
  match names with
  | [] => ret tt
  | n :: ns =>
      match method n with
      | Some m => m ;;; start_calls ns
      | None => throw (ETypeError (String.append "this." (String.append n " is not a function")))
      end
  end.

Definition clearAuthData_calls : list string :=
  ["removeAuthToken"; "removeRefreshToken"; "removeTokenExpiry";
   "removeUserProfile"; "removeUserRoles"; "removeUserPermissions"].

(** [clearAuthData]: the try/catch only surrounds [await Promise.all], so
    an exception raised while building the array escapes it. *)
Definition clearAuthData : M jsval :=
  start_calls clearAuthData_calls ;;;
  catch_ (ret (JBool true)) (fun _ => ret (JBool false)).

Definition key_appSettings := "gu_app_settings".

(** [Object.values(this.keys)]. *)
Definition key_values : list string :=
  [key_authToken; key_refreshToken; key_tokenExpiry; key_userProfile;
   key_userRoles; key_userPermissions; key_appSettings].

Definition testKey := "storage_test_key".
Definition testValue := "test_value".

(** [isStorageWorking()]. *)
Definition isStorageWorking : M jsval :=
  catch_
    (setResult <-- setItem testKey (JStr testValue) ;;
     if negb (truthy setResult) then ret (JBool false) else
     retrievedValue <-- getItem testKey ;;
     if negb (strict_eq_str retrievedValue testValue) then ret (JBool false) else
     removeResult <-- removeItem testKey ;;
     ret removeResult)
    (fun _ => ret (JBool false)).

(** The object built by [getStorageInfo()]. *)
Record StorageInfo := mkInfo {
  totalKeys : nat;
  authKeys : nat;
  otherKeys : Z;
  secureStoreAvailable : bool
}.

(** [getStorageInfo()]: [allKeys = Array.from(memoryStorage.keys())];
    [authKeys] counts the values of [this.keys] found in [allKeys];
    [otherKeys = allKeys.length - authKeys]. *)
Definition getStorageInfo : M StorageInfo :=
  fun s =>
    let allKeys := (map_to_list (store s)).*1 in
    let auth := length (filter (fun k => k ∈ allKeys) key_values) in
    (Ok (mkInfo (length allKeys) auth
                (Z.of_nat (length allKeys) - Z.of_nat auth)%Z false), s).

End StorageService.

(** ** ApiService (src/services/ApiService.js) *)
Module ApiService.

(** [fetch(url, config)] then [response.json()]: the request goes out (and
    is logged) and the next scripted answer comes back; with nothing left
    in the script the network is down. Headers and bodies are not modelled:
    the script decides the answer. *)
Definition fetch (endpoint : string) : M netresp :=
  fun s =>
    let s' := mkSt (store s) (api_token s) (api_auth s) (is_init s) (now s) (zone s)
                   (tail (script s)) (netlog s ++ [endpoint]) in
    match script s with
    | r :: _ => (Ok r, s')
    | [] => (Err (EError "Network request failed"), s')
    end.

(** [setToken(token)]: [this.token = token; this.isAuthenticated = !!token]. *)
Definition setToken (t : jsval) : M unit := fun s => (Ok tt, set_token t (truthy t) s).

(** [clearToken()]. *)
Definition clearToken : M unit := fun s => (Ok tt, set_token JNull false s).

(** [response.ok]: status in 200..299. *)
Definition response_ok (status : Z) : bool := (200 <=? status)%Z && (status <? 300)%Z.

(** [request(endpoint, options)]: the body is returned on [response.ok];
    otherwise [throw new Error(data.message || `HTTP ${response.status}`)];
    the catch block only logs and rethrows. *)
Definition request (endpoint : string) : M jsval :=
  r <-- fetch endpoint ;;
  match r with
  | NetDown m => throw (EError m)
  | Resp status data =>
      if response_ok status then ret data
      else m <-- prop data "message" ;;
           throw (EError (if truthy m then js_to_string m
                          else String.append "HTTP " (pretty status)))
  end.

(** The value of [response.success && response.data.<field>]. *)
Definition success_field (response : jsval) (field : string) : result jsval :=
  match get_prop response "success" with
  | Ok ok => if truthy ok
             then match get_prop response "data" with
                  | Ok d => get_prop d field
                  | Err e => Err e
                  end
             else Ok ok
  | Err e => Err e
  end.

Definition success_and (response : jsval) (field : string) : M jsval :=
  lift (success_field response field).

(** [refreshToken()]: [POST /refresh], then [setToken] on a token. *)
Definition refreshToken : M jsval :=
  response <-- request "/refresh" ;;
  t <-- success_and response "token" ;;
  (if truthy t then setToken t else ret tt) ;;;
  ret response.

(** [logout()]: [POST /logout], then [clearToken] on success. *)
Definition logout : M jsval :=
  response <-- request "/logout" ;;
  ok <-- prop response "success" ;;
  (if truthy ok then clearToken else ret tt) ;;;
  ret response.

(** [registerAnalyticsEvent(eventData)]: the validation, then
    [POST /analytics/register-event]. *)
Fixpoint check_required (eventData : jsval) (fields : list string) : M unit :=
  match fields with
  | [] => ret tt
  | f :: fs =>
      v <-- prop eventData f ;;
      if truthy v then check_required eventData fs
      else throw (EError (String.append "Missing required field: " f))
  end.

Definition validAccuracies : list string := ["high"; "medium"; "low"].

Definition registerAnalyticsEvent (eventData : jsval) : M jsval :=
  check_required eventData ["device_uuid"; "event_keyword"] ;;;
  u <-- prop eventData "device_uuid" ;; ul <-- prop u "length" ;;
  if js_gt ul (NFin 255)
  then throw (EError "device_uuid exceeds maximum length of 255 characters") else
  k <-- prop eventData "event_keyword" ;; kl <-- prop k "length" ;;
  if js_gt kl (NFin 255)
  then throw (EError "event_keyword exceeds maximum length of 255 characters") else
  lat <-- prop eventData "latitude" ;;
  (match lat with
   | JUndef => ret tt
   | JNum n => if num_lt n (NFin (-90)) || num_lt (NFin 90) n
               then throw (EError "latitude must be a number between -90 and 90")
               else ret tt
   | _ => throw (EError "latitude must be a number between -90 and 90")
   end) ;;;
  lng <-- prop eventData "longitude" ;;
  (match lng with
   | JUndef => ret tt
   | JNum n => if num_lt n (NFin (-180)) || num_lt (NFin 180) n
               then throw (EError "longitude must be a number between -180 and 180")
               else ret tt
   | _ => throw (EError "longitude must be a number between -180 and 180")
   end) ;;;
  acc <-- prop eventData "location_accuracy" ;;
  (match acc with
   | JUndef => ret tt
   | JStr s => if bool_decide (s ∈ validAccuracies) then ret tt
               else throw (EError "location_accuracy must be one of: high, medium, low")
   | _ => throw (EError "location_accuracy must be one of: high, medium, low")
   end) ;;;
  request "/analytics/register-event".

(** [isUserAuthenticated()]: [this.isAuthenticated && !!this.token]. *)
Definition isUserAuthenticated (s : St) : bool := api_auth s && truthy (api_token s).

(** [login(credentials)]: [POST /login], then [setToken] on a token (the
    credentials travel in the body, which the script does not look at). *)
Definition login : M jsval :=
  response <-- request "/login" ;;
  t <-- success_and response "token" ;;
  (if truthy t then setToken t else ret tt) ;;;
  ret response.

(** [validatePassword(password)]: the result object. *)
Record PasswordCheck := mkCheck {
  isValid : bool;
  d_minLength : bool;
  d_hasUpperCase : bool;
  d_hasLowerCase : bool;
  d_hasNumbers : bool;
  d_hasSpecialChar : bool
}.

Definition code_in (lo hi : nat) (c : Ascii.ascii) : bool :=
  Nat.leb lo (Ascii.nat_of_ascii c) && Nat.leb (Ascii.nat_of_ascii c) hi.

(** The character codes of the special-character class of
    [validatePassword]: ! @ # $ % ^ & * ( ) , . ? the double quote : { } | < >. *)
Definition special_codes : list nat :=
  [33; 64; 35; 36; 37; 94; 38; 42; 40; 41; 44; 46; 63; 34; 58; 123; 125; 124; 60; 62].

(** [/[...]/.test(s)] for a one-character class. *)
Definition test_class (cls : Ascii.ascii -> bool) (s : string) : bool :=
  existsb cls (String.list_ascii_of_string s).

Definition minLength : nat := 8.

Definition validatePassword (password : string) : PasswordCheck :=
  let hasUpperCase := test_class (code_in 65 90) password in
  let hasLowerCase := test_class (code_in 97 122) password in
  let hasNumbers := test_class (code_in 48 57) password in
  let hasSpecialChar :=
    test_class (fun c => bool_decide (Ascii.nat_of_ascii c ∈ special_codes)) password in
  let isValid := Nat.leb minLength (String.length password) && hasUpperCase && hasLowerCase
                 && hasNumbers && hasSpecialChar in
  mkCheck isValid (Nat.leb minLength (String.length password)) hasUpperCase hasLowerCase
          hasNumbers hasSpecialChar.

End ApiService.

(** ** EnhancedApiService (src/services/EnhancedApiService.js) *)
Module EnhancedApiService.

Definition get_init : M bool := fun s => (Ok (is_init s), s).
Definition mark_init : M unit := fun s => (Ok tt, set_init true s).

(** The expiry written after a login or a refresh:
    [const expiry = new Date(); expiry.setHours(expiry.getHours() + 24)].
    [setHours] works on the local time: [MakeTime(h + 24, min, sec, ms)]
    adds a day to LocalTime(now), and the result is converted back with
    UTC(). Out of the Date range ([TimeClip]) the Date is invalid and
    [toISOString()] throws a RangeError ("Invalid time value"). *)
Definition day_ms : Z := 86400000.
Definition max_time : Z := 8640000000000000.
Definition expiry24h (s : St) : Z :=
  tz_utc (zone s) (now s + tz_offset (zone s) (now s) + day_ms)%Z.
Definition storeExpiry24h : M jsval :=
  fun s => if (Z.abs (expiry24h s) <=? max_time)%Z
           then StorageService.storeTokenExpiry (expiry24h s) s
           else (Err (EError "Invalid time value"), s).

(** The body of the single-flight promise of [refreshToken()], as run by
    the caller that starts it ([refreshPromise] is [null] on entry and is
    reset by the [finally]). *)
Definition refreshToken : M jsval :=
  catch_
    (response <-- ApiService.refreshToken ;;
     t <-- ApiService.success_and response "token" ;;
     (if truthy t then StorageService.storeAuthToken t ;;; storeExpiry24h ;;; ret tt
      else ret tt) ;;;
     ret response)
    (fun e => StorageService.clearAuthData ;;; ApiService.clearToken ;;; throw e).

(** [initialize()]. *)
Definition initialize : M bool :=
  inited <-- get_init ;;
  if inited then ret true else
  catch_
    (token <-- StorageService.getAuthToken ;;
     (if truthy token
      then ApiService.setToken token ;;;
           isExpired <-- StorageService.isTokenExpired ;;
           (if isExpired then refreshToken ;;; ret tt else ret tt)
      else ret tt) ;;;
     mark_init ;;; ret true)
    (fun _ => ret false).

(** [logout()], over the storage cleanup it calls ([clear] is
    [storageService.clearAuthData]). *)
Definition logout_with (clear : M jsval) : M jsval :=
  catch_
    (response <-- ApiService.logout ;;
     ok <-- prop response "success" ;;
     (if truthy ok then clear ;;; ApiService.clearToken else ret tt) ;;;
     ret response)
    (fun e => clear ;;; ApiService.clearToken ;;; throw e).

Definition logout : M jsval := logout_with StorageService.clearAuthData.

(** [options.requireAuth !== false], with [None] for an absent option. *)
Definition not_false (o : option bool) : bool :=
  match o with Some false => false | _ => true end.

Definition session_expired : jserr := EError "Authentication expired. Please login again.".

(** [request(endpoint, options)]. *)
Definition request (endpoint : string) (requireAuth : option bool) : M jsval :=
  initialize ;;;
  catch_ (ApiService.request endpoint)
    (fun error =>
       if str_includes (err_message error) "401" && not_false requireAuth
       then catch_ (refreshToken ;;; ApiService.request endpoint)
                   (fun _ => logout ;;; throw session_expired)
       else throw error).

(** The envelope a cached getter answers with. *)
Definition cached_envelope (field : string) (v : jsval) : jsval :=
  JObj [("success", JBool true); ("data", JObj [(field, v)])].

(** [getUserProfile(forceRefresh)]. *)
Definition getUserProfile (forceRefresh : bool) : M jsval :=
  let fetch :=
    response <-- request "/user" None ;;
    u <-- ApiService.success_and response "user" ;;
    (if truthy u then StorageService.storeUserProfile u ;;; ret tt else ret tt) ;;;
    ret response in
  if forceRefresh then fetch
  else cachedProfile <-- StorageService.getUserProfile ;;
       if truthy cachedProfile then ret (cached_envelope "user" cachedProfile)
       else fetch.

(** [getUserPermissions(forceRefresh)]. *)
Definition getUserPermissions (forceRefresh : bool) : M jsval :=
  let fetch :=
    response <-- request "/user/permissions" None ;;
    p <-- ApiService.success_and response "permissions" ;;
    (if truthy p then StorageService.storeUserPermissions p ;;; ret tt else ret tt) ;;;
    ret response in
  if forceRefresh then fetch
  else cachedPermissions <-- StorageService.getUserPermissions ;;
       if truthy cachedPermissions then ret (cached_envelope "permissions" cachedPermissions)
       else fetch.

(** [getHighestRoleLevel()]. *)
Definition getHighestRoleLevel : M jsval :=
  catch_
    (response <-- getUserPermissions false ;;
     h <-- ApiService.success_and response "highest_role_level" ;;
     if truthy h then ret h else ret (jint 1))
    (fun _ => ret (jint 1)).

(** [login(credentials)]. *)
Definition login : M jsval :=
  catch_
    (response <-- ApiService.login ;;
     t <-- ApiService.success_and response "token" ;;
     (if truthy t
      then StorageService.storeAuthToken t ;;;
           d <-- prop response "data" ;; u <-- prop d "user" ;;
           StorageService.storeUserProfile u ;;;
           storeExpiry24h ;;; ret tt
      else ret tt) ;;;
     ret response)
    (fun error => throw error).

(** [getUserRoles(forceRefresh)]. *)
Definition getUserRoles (forceRefresh : bool) : M jsval :=
  let fetch :=
    response <-- request "/user/roles" None ;;
    r <-- ApiService.success_and response "roles" ;;
    (if truthy r then StorageService.storeUserRoles r ;;; ret tt else ret tt) ;;;
    ret response in
  if forceRefresh then fetch
  else cachedRoles <-- StorageService.getUserRoles ;;
       if truthy cachedRoles then ret (cached_envelope "roles" cachedRoles)
       else fetch.

(** [container.includes(permission)] for a string [permission]: array
    membership (SameValueZero), substring search on a string, a TypeError
    otherwise. *)
Definition includes_str (container : jsval) (p : string) : result bool :=
  match container with
  | JArr xs => Ok (existsb (fun x => strict_eq_str x p) xs)
  | JStr s => Ok (str_includes s p)
  | JUndef => Err (ETypeError "Cannot read property of undefined: includes")
  | JNull => Err (ETypeError "Cannot read property of null: includes")
  | _ => Err (ETypeError "includes is not a function")
  end.

(** [l.some(f)] and [l.every(f)] with a callback that may throw. *)
Fixpoint res_existsb {A} (f : A -> result bool) (l : list A) : result bool :=
  match l with
  | [] => Ok false
  | x :: l' => match f x with
               | Ok true => Ok true
               | Ok false => res_existsb f l'
               | Err e => Err e
               end
  end.

Fixpoint res_forallb {A} (f : A -> result bool) (l : list A) : result bool :=
  match l with
  | [] => Ok true
  | x :: l' => match f x with
               | Ok true => res_forallb f l'
               | Ok false => Ok false
               | Err e => Err e
               end
  end.

(** [hasPermission(permission)]. *)
Definition hasPermission (permission : string) : M bool :=
  catch_
    (response <-- getUserPermissions false ;;
     ps <-- ApiService.success_and response "permissions" ;;
     if truthy ps then lift (includes_str ps permission) else ret false)
    (fun _ => ret false).

(** [hasAnyPermission(permissions)]. *)
Definition hasAnyPermission (permissions : list string) : M bool :=
  catch_
    (response <-- getUserPermissions false ;;
     ps <-- ApiService.success_and response "permissions" ;;
     if truthy ps then lift (res_existsb (includes_str ps) permissions) else ret false)
    (fun _ => ret false).

(** [hasAllPermissions(permissions)]. *)
Definition hasAllPermissions (permissions : list string) : M bool :=
  catch_
    (response <-- getUserPermissions false ;;
     ps <-- ApiService.success_and response "permissions" ;;
     if truthy ps then lift (res_forallb (includes_str ps) permissions) else ret false)
    (fun _ => ret false).

(** The proxies that pass [requireAuth: false] (request bodies are not
    modelled). *)
Definition register : M jsval := request "/register" (Some false).
Definition forgotPassword : M jsval := request "/forgot-password" (Some false).
Definition resetPassword : M jsval := request "/reset-password" (Some false).
Definition verifyResetToken : M jsval := request "/verify-reset-token" (Some false).

(** [updateUserProfile(profileData)]: [PUT /user], then the returned user
    replaces the cached profile. *)
Definition updateUserProfile : M jsval :=
  response <-- request "/user" None ;;
  u <-- ApiService.success_and response "user" ;;
  (if truthy u then StorageService.storeUserProfile u ;;; ret tt else ret tt) ;;;
  ret response.

End EnhancedApiService.

(** ** AuthProvider (src/unnamed/part_003) *)
Module AuthProvider.

Record role := mkRole { role_name : string; role_level : Z }.

(** [getHighestRoleLevel()] over the [userRoles] state:
    [userRoles.length === 0 ? 1 : Math.max(...userRoles.map(r => r.level))]. *)
Definition getHighestRoleLevel (userRoles : list role) : Z :=
  match userRoles with
  | [] => 1
  | r :: rs => fold_left Z.max (map role_level rs) (role_level r)
  end.

(** [hasRole(roleName)]: [userRoles.some(role => role.name === roleName)]. *)
Definition hasRole (userRoles : list role) (roleName : string) : bool :=
  existsb (fun r => String.eqb (role_name r) roleName) userRoles.

(** [isAdmin()], [isSectorAdmin()], [isPropertyOwner()]. *)
Definition isAdmin (userRoles : list role) : bool := (4 <=? getHighestRoleLevel userRoles)%Z.
Definition isSectorAdmin (userRoles : list role) : bool := (3 <=? getHighestRoleLevel userRoles)%Z.
Definition isPropertyOwner (userRoles : list role) : bool := (2 <=? getHighestRoleLevel userRoles)%Z.

(** [hasPermission], [hasAnyPermission], [hasAllPermissions] over the
    [userPermissions] state. *)
Definition hasPermission (userPermissions : list string) (permission : string) : bool :=
  existsb (fun q => String.eqb q permission) userPermissions.
Definition hasAnyPermission (userPermissions permissions : list string) : bool :=
  existsb (hasPermission userPermissions) permissions.
Definition hasAllPermissions (userPermissions permissions : list string) : bool :=
  forallb (hasPermission userPermissions) permissions.

End AuthProvider.

(** ** AnalyticsService (src/services/ApiService.js, second class) *)
Module AnalyticsService.

(** The fields of the singleton; the last three come from expo-constants
    and react-native's Platform. *)
Record ASt := mkA {
  deviceUUID : jsval;
  appVersion : string;
  platform : string;
  platformVersion : string
}.

(** [initialize(deviceUUID)]. *)
Definition initialize (a : ASt) (uuid : jsval) : ASt :=
  mkA uuid (appVersion a) (platform a) (platformVersion a).

(** [getDeviceInfo()]. *)
Definition getDeviceInfo (a : ASt) : list (string * jsval) :=
  [("device_uuid", deviceUUID a); ("app_version", JStr (appVersion a));
   ("platform", JStr (platform a)); ("platform_version", JStr (platformVersion a))].

(** One property written by an object spread: an existing key keeps its
    place and takes the new value, a new key goes last. *)
Definition assign_field (fs : list (string * jsval)) (kv : string * jsval)
    : list (string * jsval) :=
  if bool_decide (kv.1 ∈ fs.*1)
  then map (fun f => if String.eqb f.1 kv.1 then (f.1, kv.2) else f) fs
  else fs ++ [kv].

(** [{...fs, ...gs}]. *)
Definition spread (fs gs : list (string * jsval)) : list (string * jsval) :=
  fold_left assign_field gs fs.

(** The [eventData] object of [registerEvent]:
    [{...this.getDeviceInfo(), event_keyword: eventKeyword, ...additionalData}]. *)
Definition event_payload (a : ASt) (eventKeyword : jsval)
    (additionalData : list (string * jsval)) : list (string * jsval) :=
  spread (spread (getDeviceInfo a) [("event_keyword", eventKeyword)]) additionalData.

Definition not_initialized : jserr :=
  EError "Analytics service not initialized. Call initialize() first.".

(** [registerEvent(eventKeyword, additionalData)]: a failure of the
    registration is logged and turned into [null]. *)
Definition registerEvent (a : ASt) (eventKeyword : jsval)
    (additionalData : list (string * jsval)) : M jsval :=
  if negb (truthy (deviceUUID a)) then throw not_initialized
  else catch_ (ApiService.registerAnalyticsEvent
                 (JObj (event_payload a eventKeyword additionalData)))
              (fun _ => ret JNull).

(** [trackSessionStart(locationData)] and [trackScreenView(...)]. *)
Definition trackSessionStart (a : ASt) (locationData : list (string * jsval)) : M jsval :=
  registerEvent a (JStr "new_session") locationData.
Definition trackScreenView (a : ASt) (screenName : jsval)
    (screenData locationData : list (string * jsval)) : M jsval :=
  registerEvent a (JStr "screen_view")
    (spread (spread [("screen_name", screenName)] screenData) locationData).

End AnalyticsService.

(** ** Concurrent callers of [refreshToken()]

    [refreshPromise] is the field of the singleton. A caller that finds it
    set gets the pending promise back; otherwise it starts the async body
    (whose [fetch] of /refresh goes out before the first [await] yields) and
    stores the new promise. When the server answers, the body runs to its
    end on the sequential state, the [finally] resets [refreshPromise] and
    the promise settles with the body's outcome, which every caller holding
    it receives. *)
Module SingleFlight.

Record FSt := mkF {
  seq : St;                              (** storage, singletons, network *)
  refreshPromise : option nat;           (** id of the pending promise *)
  next_id : nat;                         (** next fresh promise id *)
  settled : list (nat * result jsval)    (** outcomes of settled promises *)
}.

(** One call of [refreshToken()]: the new state and the promise returned. *)
Definition call (f : FSt) : FSt * nat :=
  match refreshPromise f with
  | Some p => (f, p)
  | None => (mkF (seq f) (Some (next_id f)) (S (next_id f)) (settled f), next_id f)
  end.

(** [n] callers arriving one after the other before the answer. *)
Fixpoint calls (n : nat) (f : FSt) : FSt * list nat :=
  match n with
  | O => (f, [])
  | S n' => let '(f1, p) := call f in
            let '(f2, ps) := calls n' f1 in
            (f2, p :: ps)
  end.

(** The server answers the pending refresh. *)
Definition settle (f : FSt) : FSt :=
  match refreshPromise f with
  | Some p =>
      let '(r, s') := EnhancedApiService.refreshToken (seq f) in
      mkF s' None (next_id f) ((p, r) :: settled f)
  | None => f
  end.

(** What a caller holding promise [p] receives. *)
Definition outcome (f : FSt) (p : nat) : option (result jsval) :=
  match list_find (fun pr => pr.1 = p) (settled f) with
  | Some (_, (_, r)) => Some r
  | None => None
  end.

(** Number of requests to an endpoint in a log. *)
Definition count_endpoint (ep : string) (l : list string) : nat :=
  length (filter (fun x => x = ep) l).

End SingleFlight.

(** ** Concurrent callers of [initialize()]

    Each caller is a thread stopped at one of the [await]s of
    [initialize()]; a step resumes one thread up to its next [await]. The
    storage reads issued at each step are counted. A refresh started by a
    thread is run to its end in one step (its sharing between callers is
    the business of [SingleFlight]). *)
Module ConcurrentInit.

Inductive pc :=
| IStart                        (** called, nothing run yet *)
| IGotToken (token : jsval)     (** at [await storageService.getAuthToken()] *)
| IGotExpiry (isExpired : bool) (** at [await storageService.isTokenExpired()] *)
| IDone (r : bool).             (** returned [r] *)

Record ISt := mkI {
  g : St;
  token_reads : nat;    (** calls of storageService.getAuthToken() *)
  expiry_reads : nat    (** calls of storageService.isTokenExpired() *)
}.

Definition step_thread (p : pc) (i : ISt) : pc * ISt :=
  match p with
  | IStart =>
      if is_init (g i) then (IDone true, i)
      else match StorageService.getAuthToken (g i) with
           | (Ok token, s') => (IGotToken token, mkI s' (S (token_reads i)) (expiry_reads i))
           | (Err _, s') => (IDone false, mkI s' (S (token_reads i)) (expiry_reads i))
           end
  | IGotToken token =>
      if truthy token
      then let s1 := snd (ApiService.setToken token (g i)) in
           match StorageService.isTokenExpired s1 with
           | (Ok b, s2) => (IGotExpiry b, mkI s2 (token_reads i) (S (expiry_reads i)))
           | (Err _, s2) => (IDone false, mkI s2 (token_reads i) (S (expiry_reads i)))
           end
      else (IDone true, mkI (set_init true (g i)) (token_reads i) (expiry_reads i))
  | IGotExpiry isExpired =>
      if isExpired
      then match EnhancedApiService.refreshToken (g i) with
           | (Ok _, s') => (IDone true, mkI (set_init true s') (token_reads i) (expiry_reads i))
           | (Err _, s') => (IDone false, mkI s' (token_reads i) (expiry_reads i))
           end
      else (IDone true, mkI (set_init true (g i)) (token_reads i) (expiry_reads i))
  | IDone r => (IDone r, i)
  end.

(** Run a schedule: each entry names the thread resumed. *)
Fixpoint run (sched : list nat) (ths : list pc) (i : ISt) : list pc * ISt :=
  match sched with
  | [] => (ths, i)
  | k :: sched' =>
      match ths !! k with
      | Some p => let '(p', i') := step_thread p i in run sched' (<[k := p']> ths) i'
      | None => run sched' ths i
      end
  end.

End ConcurrentInit.

(** ** Sample states *)

Definition ok_envelope : jsval := JObj [("success", JBool true)].

(** A logged-in, initialized session holding a token. *)
Definition session_state (sc : list netresp) : St :=
  mkSt (<[StorageService.key_authToken := JStr "tok"]> ∅) (JStr "tok") true true 0 utc_zone sc [].

(** An initialized session with nothing stored. *)
Definition empty_state (sc : list netresp) : St :=
  mkSt ∅ JNull false true 0 utc_zone sc [].

(** The persisted session keys. *)
Definition auth_keys : list string :=
  [StorageService.key_authToken; StorageService.key_refreshToken;
   StorageService.key_tokenExpiry; StorageService.key_userProfile;
   StorageService.key_userRoles; StorageService.key_userPermissions].

(** A storage cleanup that removes every persisted session key and
    resolves, as the doc comment of [clearAuthData] describes it. *)
Definition remove_auth_keys : M jsval :=
  fun s => (Ok (JBool true),
            set_store (fold_right (fun k m => delete k m) (store s) auth_keys) s).

(** The storage cleanup [logout()] calls resolves after removing the six
    session keys (what the doc comment of [clearAuthData] promises). *)
Definition clear_removes (clear : M jsval) : Prop :=
  forall s, clear s = (Ok (JBool true),
                       set_store (fold_right (fun k m => delete k m) (store s) auth_keys) s).

(** Uninitialized, with a token and an expiry in the future stored. *)
Definition uninit_with_token : ConcurrentInit.ISt :=
  ConcurrentInit.mkI
    (mkSt (<[StorageService.key_authToken := JStr "tok"]>
             (<[StorageService.key_tokenExpiry := jint 1000]> ∅))
          JNull false false 0 utc_zone [] [])
    0 0.

(** The same state once the clock reads [t] ms. *)
Definition advance_to (t : Z) (s : St) : St :=
  mkSt (store s) (api_token s) (api_auth s) (is_init s) t (zone s) (script s) (netlog s).

(** The value [get_prop] finds under [k] in a field list, if any. *)
Definition assoc (k : string) (fs : list (string * jsval)) : option jsval :=
  match list_find (fun kv => kv.1 = k) fs with
  | Some (_, (_, x)) => Some x
  | None => None
  end.

(** [apiService.isAuthenticated] agrees with [!!apiService.token]: what
    [setToken] establishes and [clearToken] keeps. *)
Definition auth_inv (s : St) : Prop := api_auth s = truthy (api_token s).

Definition keeps_auth {A} (m : M A) : Prop := forall s, auth_inv s -> auth_inv (snd (m s)).

(** [m] leaves [isInitialized] as it found it. *)
Definition keeps_init {A} (m : M A) : Prop := forall s, is_init (snd (m s)) = is_init s.

(** A successful login envelope. *)
Definition login_ok_body : jsval :=
  JObj [("success", JBool true);
        ("data", JObj [("token", JStr "abc"); ("user", JObj [("name", JStr "Ana")])])].

(** A device identifier of 256 characters. *)
Definition long_uuid : string := String.string_of_list_ascii (repeat (Ascii.ascii_of_nat 97) 256).

(** An analytics service initialized with [uuid]. *)
Definition analytics_with (uuid : jsval) : AnalyticsService.ASt :=
  AnalyticsService.mkA uuid "1.0.0" "ios" "17".

(** * Properties *)

(** ** StorageService.clearAuthData *)

Lemma clearAuthData_eq (s : St) :
  StorageService.clearAuthData s =
    (Err (ETypeError "this.removeTokenExpiry is not a function"),
     set_store (delete StorageService.key_refreshToken
                  (delete StorageService.key_authToken (store s))) s).
Proof. destruct s; reflexivity. Qed.

(** C4: for every storage state, [clearAuthData()] rejects with a
    TypeError ([this.removeTokenExpiry] is not a function) after removing
    the auth-token and refresh-token keys only: the token-expiry,
    user-profile, user-roles and user-permissions entries are unchanged. *)
Theorem clearAuthData_partial_then_TypeError (s : St) :
  fst (StorageService.clearAuthData s)
    = Err (ETypeError "this.removeTokenExpiry is not a function")
  /\ store (snd (StorageService.clearAuthData s)) !! StorageService.key_authToken = None
  /\ store (snd (StorageService.clearAuthData s)) !! StorageService.key_refreshToken = None
  /\ (forall k, k ∈ [StorageService.key_tokenExpiry; StorageService.key_userProfile;
                    StorageService.key_userRoles; StorageService.key_userPermissions] ->
       store (snd (StorageService.clearAuthData s)) !! k = store s !! k).
Proof.
  rewrite clearAuthData_eq; simpl.
  split; [done|]. split.
  { rewrite lookup_delete_ne; [|done]. by rewrite lookup_delete_eq. }
  split; [by rewrite lookup_delete_eq|].
  intros k Hk.
  rewrite lookup_delete_ne, lookup_delete_ne; [done| |];
    repeat (apply elem_of_cons in Hk as [->|Hk]; [done|]); set_solver.
Qed.

(** C5 (code defect): [clearAuthData()], a StorageService operation, never
    resolves with [false] on failure: in every storage state it rejects to
    its caller with a TypeError, because the exception of the missing
    [removeTokenExpiry] is raised outside its try/catch. *)
Theorem clearAuthData_rejects_to_caller (s : St) :
  exists e, fst (StorageService.clearAuthData s) = Err e
            /\ fst (StorageService.clearAuthData s) <> Ok (JBool false)
            /\ fst (StorageService.clearAuthData s) <> Ok (JBool true).
Proof.
  rewrite clearAuthData_eq; simpl.
  eexists; split; [reflexivity|]. split; discriminate.
Qed.

(** ** EnhancedApiService.request: refresh-and-retry *)

(** C1 (code defect): the 401 is recognised only through the text of the
    error message. A 401 whose body carries a message (here
    "Unauthenticated.") fails with that message: no refresh, no retry, only
    the one request to /user. And when the message is the fallback
    "HTTP 401" but the refresh fails, the call does not end with the
    session-expired error: the TypeError of [clearAuthData] escapes from
    [logout()] instead. *)
Theorem request_401_handling_on_samples :
  (let '(r, s') := EnhancedApiService.request "/user" None
                     (session_state [Resp 401 (JObj [("message", JStr "Unauthenticated.")]);
                                     Resp 200 ok_envelope; Resp 200 ok_envelope]) in
   r = Err (EError "Unauthenticated.") /\ netlog s' = ["/user"])
  /\
  (let '(r, s') := EnhancedApiService.request "/user" None
                     (session_state [Resp 401 (JObj []); Resp 500 (JObj []);
                                     Resp 200 ok_envelope]) in
   r = Err (ETypeError "this.removeTokenExpiry is not a function")
   /\ r <> Err EnhancedApiService.session_expired
   /\ netlog s' = ["/user"; "/refresh"; "/logout"]).
Proof.
  split.
  - vm_compute. split; reflexivity.
  - vm_compute. split; [reflexivity|]. split; [discriminate|reflexivity].
Qed.

(** ** ApiService.registerAnalyticsEvent *)

(** C10 (code defect): a latitude of NaN is a number outside [-90, 90],
    yet both range comparisons are false on NaN, so the event passes the
    validation and is sent to /analytics/register-event; a latitude of 95
    is rejected before any request, as the spec's example says. *)
Theorem registerAnalyticsEvent_nan_latitude_sent :
  (let '(r, s') := ApiService.registerAnalyticsEvent
                     (JObj [("device_uuid", JStr "d"); ("event_keyword", JStr "e");
                            ("latitude", JNum NNaN)])
                     (session_state [Resp 200 ok_envelope]) in
   r = Ok ok_envelope /\ netlog s' = ["/analytics/register-event"])
  /\
  (let '(r, s') := ApiService.registerAnalyticsEvent
                     (JObj [("device_uuid", JStr "d"); ("event_keyword", JStr "e");
                            ("latitude", jint 95)])
                     (session_state [Resp 200 ok_envelope]) in
   r = Err (EError "latitude must be a number between -90 and 90") /\ netlog s' = []).
Proof. split; vm_compute; split; reflexivity. Qed.

(** ** ApiService.request: HTTP errors *)

(** C7, counterexample: the error does not carry the status. Answers 401
    and 403 with the same message give the same error, so no function of
    the error recovers the status of every non-2xx response. *)
Lemma request_error_lacks_status :
  ~ (exists status_of : jserr -> Z,
       forall status body, ApiService.response_ok status = false ->
         match fst (ApiService.request "/user" (session_state [Resp status body])) with
         | Err e => status_of e = status
         | Ok _ => False
         end).
Proof.
  intros [status_of H].
  pose proof (H 401%Z (JObj [("message", JStr "Unauthenticated.")]) eq_refl) as H1.
  pose proof (H 403%Z (JObj [("message", JStr "Unauthenticated.")]) eq_refl) as H2.
  vm_compute in H1, H2. congruence.
Qed.

(** C7, as the code does it: on a non-2xx answer whose JSON body is not
    [null]/[undefined], [ApiService.request] fails with a plain [Error]
    (no other field, so no status code): its message is the body's
    [message] when that is a non-empty string, and "HTTP <status>" when
    [message] is missing or falsy. *)
Theorem request_error_message (s : St) (ep : string) (status : Z) (data : jsval)
    (rest : list netresp) :
  script s = Resp status data :: rest ->
  ApiService.response_ok status = false ->
  data <> JUndef -> data <> JNull ->
  exists m, get_prop data "message" = Ok m
    /\ (forall t, m = JStr t -> t <> "" -> fst (ApiService.request ep s) = Err (EError t))
    /\ (truthy m = false ->
        fst (ApiService.request ep s) = Err (EError (String.append "HTTP " (pretty status)))).
Proof.
  intros Hs Hok Hu Hn.
  assert (Hm : exists m, get_prop data "message" = Ok m)
    by (destruct data; try congruence; eexists; reflexivity).
  destruct Hm as [m Hm]. exists m. split; [exact Hm|].
  unfold ApiService.request, ApiService.fetch, bind, prop, lift, throw.
  rewrite Hs; simpl. rewrite Hok, Hm. split.
  - intros t -> Ht. simpl. destruct (String.eqb_spec t ""); [done|reflexivity].
  - intros Hf. by rewrite Hf.
Qed.

Lemma request_error_message_witness :
  ApiService.response_ok 404 = false
  /\ exists m, get_prop (JObj [("message", JStr "Not found")]) "message" = Ok m
    /\ (forall t, m = JStr t -> t <> "" ->
          fst (ApiService.request "/user"
                 (session_state [Resp 404 (JObj [("message", JStr "Not found")])]))
          = Err (EError t))
    /\ (truthy m = false ->
        fst (ApiService.request "/user"
               (session_state [Resp 404 (JObj [("message", JStr "Not found")])]))
        = Err (EError (String.append "HTTP " (pretty 404%Z)))).
Proof.
  split; [reflexivity|].
  apply (request_error_message (session_state [Resp 404 (JObj [("message", JStr "Not found")])])
           "/user" 404 (JObj [("message", JStr "Not found")]) []); try reflexivity; discriminate.
Defined.

(** ** Highest role level *)

(** C9, counterexample: with no roles cached (and no permissions cached),
    [EnhancedApiService.getHighestRoleLevel()] fetches /user/permissions
    and answers the server's [highest_role_level], here 3, not 1. *)
Lemma highest_role_level_not_from_roles :
  ~ (forall s : St, store s !! StorageService.key_userRoles = None ->
       fst (EnhancedApiService.getHighestRoleLevel s) = Ok (jint 1)).
Proof.
  intros H.
  specialize (H (empty_state
                   [Resp 200 (JObj [("success", JBool true);
                                    ("data", JObj [("permissions", JArr []);
                                                   ("highest_role_level", jint 3)])])])
                eq_refl).
  vm_compute in H. discriminate.
Qed.

Lemma fold_max_bounds (l : list Z) (acc : Z) :
  (acc <= fold_left Z.max l acc)%Z
  /\ (forall x, x ∈ l -> x <= fold_left Z.max l acc)%Z
  /\ (fold_left Z.max l acc = acc \/ fold_left Z.max l acc ∈ l).
Proof.
  revert acc. induction l as [|y l IH]; intros acc; simpl.
  - split; [lia|]. split; [intros x Hx; inversion Hx|]. by left.
  - destruct (IH (Z.max acc y)) as (H1 & H2 & H3).
    split; [lia|]. split.
    + intros x Hx. apply elem_of_cons in Hx as [->|Hx]; [lia|]. by apply H2.
    + destruct H3 as [H3|H3].
      * rewrite H3. destruct (Z.max_spec acc y) as [[_ ->]|[_ ->]];
          [right; apply elem_of_cons; by left|by left].
      * right. apply elem_of_cons. by right.
Qed.

(** C9, as the code does it: [AuthProvider.getHighestRoleLevel()] returns
    1 when it holds no roles and otherwise the maximum level of its roles;
    [EnhancedApiService.getHighestRoleLevel()] never fails and never looks
    at the cached roles: it answers the [highest_role_level] of the
    [getUserPermissions()] response when that is truthy, and 1 otherwise
    (also when [getUserPermissions()] fails). *)
Theorem highest_role_level_behaviour :
  AuthProvider.getHighestRoleLevel [] = 1%Z
  /\ (forall (roles : list AuthProvider.role), roles <> [] ->
        (forall r, r ∈ roles ->
           (AuthProvider.role_level r <= AuthProvider.getHighestRoleLevel roles)%Z)
        /\ exists r, r ∈ roles
                     /\ AuthProvider.role_level r = AuthProvider.getHighestRoleLevel roles)
  /\ (forall s : St,
        EnhancedApiService.getHighestRoleLevel s =
          match EnhancedApiService.getUserPermissions false s with
          | (Ok response, s') =>
              (Ok (match ApiService.success_field response "highest_role_level" with
                   | Ok h => if truthy h then h else jint 1
                   | Err _ => jint 1
                   end), s')
          | (Err _, s') => (Ok (jint 1), s')
          end).
Proof.
  split; [reflexivity|]. split.
  - intros [|r0 rs] Hne; [done|]. simpl.
    destruct (fold_max_bounds (map AuthProvider.role_level rs) (AuthProvider.role_level r0))
      as (H1 & H2 & H3).
    split.
    + intros r Hr. apply elem_of_cons in Hr as [->|Hr]; [done|].
      apply H2. apply list_elem_of_fmap. by exists r.
    + destruct H3 as [H3|H3].
      * exists r0. split; [apply elem_of_cons; by left|done].
      * apply list_elem_of_fmap in H3 as (r & Hr & Hin).
        exists r. split; [apply elem_of_cons; by right|done].
  - intros s. unfold EnhancedApiService.getHighestRoleLevel, catch_, bind,
      ApiService.success_and, lift, ret.
    destruct (EnhancedApiService.getUserPermissions false s) as [[resp|e] s'];
      [|reflexivity].
    destruct (ApiService.success_field resp "highest_role_level") as [h|e]; [|reflexivity].
    by destruct (truthy h).
Qed.

(** ** The request log *)

Definition log_kept {A} (m : M A) : Prop := forall s, netlog (snd (m s)) = netlog s.
Definition log_adds {A} (l : list string) (m : M A) : Prop :=
  forall s, netlog (snd (m s)) = (netlog s ++ l)%list.
Definition log_grows {A} (m : M A) : Prop :=
  forall s, netlog s `prefix_of` netlog (snd (m s)).
Definition log_maybe {A} (l : list string) (m : M A) : Prop :=
  forall s, netlog (snd (m s)) = netlog s \/ netlog (snd (m s)) = (netlog s ++ l)%list.

Create HintDb logdb.

Lemma ret_kept {A} (a : A) : log_kept (ret a).
Proof. intros s. reflexivity. Qed.
Lemma throw_kept {A} (e : jserr) : log_kept (A:=A) (throw e).
Proof. intros s. reflexivity. Qed.
Lemma lift_kept {A} (r : result A) : log_kept (lift r).
Proof. intros s. reflexivity. Qed.
Lemma prop_kept (v : jsval) (k : string) : log_kept (prop v k).
Proof. intros s. reflexivity. Qed.

Lemma bind_kept {A B} (m : M A) (k : A -> M B) :
  log_kept m -> (forall a, log_kept (k a)) -> log_kept (bind m k).
Proof.
  intros Hm Hk s. unfold bind. specialize (Hm s).
  destruct (m s) as [[a|e] s1]; simpl in *; [rewrite Hk|]; done.
Qed.

Lemma catch_kept {A} (m : M A) (h : jserr -> M A) :
  log_kept m -> (forall e, log_kept (h e)) -> log_kept (catch_ m h).
Proof.
  intros Hm Hh s. unfold catch_. specialize (Hm s).
  destruct (m s) as [[a|e] s1]; simpl in *; [|rewrite Hh]; done.
Qed.

Lemma if_kept {A} (b : bool) (m1 m2 : M A) :
  log_kept m1 -> log_kept m2 -> log_kept (if b then m1 else m2).
Proof. by destruct b. Qed.

Lemma setItem_kept k v : log_kept (StorageService.setItem k v).
Proof. intros s. reflexivity. Qed.
Lemma getItem_kept k : log_kept (StorageService.getItem k).
Proof. intros s. reflexivity. Qed.
Lemma removeItem_kept k : log_kept (StorageService.removeItem k).
Proof. intros s. reflexivity. Qed.
Lemma setToken_kept t : log_kept (ApiService.setToken t).
Proof. intros s. reflexivity. Qed.
Lemma clearToken_kept : log_kept ApiService.clearToken.
Proof. intros s. reflexivity. Qed.

#[local] Hint Resolve ret_kept throw_kept lift_kept prop_kept bind_kept catch_kept if_kept
  setItem_kept getItem_kept removeItem_kept setToken_kept clearToken_kept : logdb.

Lemma clearAuthData_kept : log_kept StorageService.clearAuthData.
Proof. intros s. by rewrite clearAuthData_eq. Qed.

Lemma isTokenExpired_kept : log_kept StorageService.isTokenExpired.
Proof.
  unfold StorageService.isTokenExpired. apply bind_kept; [auto with logdb|].
  intros e s. reflexivity.
Qed.

Lemma storeExpiry24h_kept : log_kept EnhancedApiService.storeExpiry24h.
Proof.
  intros s. unfold EnhancedApiService.storeExpiry24h.
  by destruct (Z.abs (EnhancedApiService.expiry24h s) <=? EnhancedApiService.max_time)%Z.
Qed.

#[local] Hint Resolve clearAuthData_kept isTokenExpired_kept storeExpiry24h_kept : logdb.

Lemma kept_grows {A} (m : M A) : log_kept m -> log_grows m.
Proof. intros H s. rewrite H. done. Qed.

Lemma adds_grows {A} l (m : M A) : log_adds l m -> log_grows m.
Proof. intros H s. rewrite H. by exists l. Qed.

Lemma bind_adds {A B} l (m : M A) (k : A -> M B) :
  log_adds l m -> (forall a, log_kept (k a)) -> log_adds l (bind m k).
Proof.
  intros Hm Hk s. unfold bind. specialize (Hm s).
  destruct (m s) as [[a|e] s1]; simpl in *; [rewrite Hk|]; done.
Qed.

Lemma catch_adds {A} l (m : M A) (h : jserr -> M A) :
  log_adds l m -> (forall e, log_kept (h e)) -> log_adds l (catch_ m h).
Proof.
  intros Hm Hh s. unfold catch_. specialize (Hm s).
  destruct (m s) as [[a|e] s1]; simpl in *; [|rewrite Hh]; done.
Qed.

Lemma bind_grows {A B} (m : M A) (k : A -> M B) :
  log_grows m -> (forall a, log_grows (k a)) -> log_grows (bind m k).
Proof.
  intros Hm Hk s. unfold bind. specialize (Hm s).
  destruct (m s) as [[a|e] s1]; simpl in *; [|done].
  etrans; [exact Hm|apply Hk].
Qed.

Lemma catch_grows {A} (m : M A) (h : jserr -> M A) :
  log_grows m -> (forall e, log_grows (h e)) -> log_grows (catch_ m h).
Proof.
  intros Hm Hh s. unfold catch_. specialize (Hm s).
  destruct (m s) as [[a|e] s1]; simpl in *; [done|].
  etrans; [exact Hm|apply Hh].
Qed.

Lemma if_grows {A} (b : bool) (m1 m2 : M A) :
  log_grows m1 -> log_grows m2 -> log_grows (if b then m1 else m2).
Proof. by destruct b. Qed.

Lemma fetch_adds ep : log_adds [ep] (ApiService.fetch ep).
Proof. intros s. unfold ApiService.fetch. by destruct (script s). Qed.

Lemma api_request_adds ep : log_adds [ep] (ApiService.request ep).
Proof.
  unfold ApiService.request. apply bind_adds; [apply fetch_adds|].
  intros [status data|m]; [|auto with logdb].
  destruct (ApiService.response_ok status); auto with logdb.
Qed.

Lemma api_refreshToken_adds : log_adds ["/refresh"] ApiService.refreshToken.
Proof.
  unfold ApiService.refreshToken, ApiService.success_and.
  apply bind_adds; [apply api_request_adds|]. auto with logdb.
Qed.

Lemma api_logout_adds : log_adds ["/logout"] ApiService.logout.
Proof.
  unfold ApiService.logout. apply bind_adds; [apply api_request_adds|]. auto with logdb.
Qed.

Lemma refreshToken_adds : log_adds ["/refresh"] EnhancedApiService.refreshToken.
Proof.
  unfold EnhancedApiService.refreshToken, ApiService.success_and.
  apply catch_adds; [|auto with logdb].
  apply bind_adds; [apply api_refreshToken_adds|]. auto 8 with logdb.
Qed.

#[local] Hint Resolve kept_grows bind_grows catch_grows if_grows : logdb.
#[local] Hint Extern 2 (log_grows _) => eapply adds_grows;
  first [apply refreshToken_adds | apply api_logout_adds | apply api_request_adds] : logdb.

Lemma initialize_grows : log_grows EnhancedApiService.initialize.
Proof.
  unfold EnhancedApiService.initialize, EnhancedApiService.get_init.
  apply bind_grows; [auto with logdb|]. intros inited.
  destruct inited; [auto with logdb|].
  apply catch_grows; [|auto with logdb].
  apply bind_grows; [auto with logdb|]. intros token.
  apply bind_grows; [|intros; apply kept_grows; intros s; reflexivity].
  destruct (truthy token); [|auto with logdb].
  apply bind_grows; [auto with logdb|]. intros _.
  apply bind_grows; [auto with logdb|]. intros b. destruct b; auto with logdb.
Qed.

Lemma initialize_ok (s : St) : exists b, fst (EnhancedApiService.initialize s) = Ok b.
Proof.
  unfold EnhancedApiService.initialize. unfold bind at 1.
  unfold EnhancedApiService.get_init at 1. cbv beta iota.
  destruct (is_init s); [by eexists|].
  unfold catch_ at 1.
  match goal with |- context [match ?m s with _ => _ end] =>
    destruct (m s) as [[a|e] s1] end; simpl; by eexists.
Qed.

Lemma logout_grows : log_grows EnhancedApiService.logout.
Proof.
  unfold EnhancedApiService.logout, EnhancedApiService.logout_with.
  apply catch_grows; [|auto with logdb].
  apply bind_grows; [auto with logdb|]. intros r.
  apply bind_grows; [auto with logdb|]. intros ok.
  apply bind_grows; [|auto with logdb]. destruct (truthy ok); auto with logdb.
Qed.

Lemma request_grows_after (ep : string) (o : option bool) (s : St) :
  exists l0, (netlog s ++ l0 ++ [ep])%list `prefix_of`
               netlog (snd (EnhancedApiService.request ep o s)).
Proof.
  assert (Hh : forall e, log_grows
    (if str_includes (err_message e) "401" && EnhancedApiService.not_false o
     then catch_ (EnhancedApiService.refreshToken ;;; ApiService.request ep)
                 (fun _ => EnhancedApiService.logout ;;; throw EnhancedApiService.session_expired)
     else throw e)).
  { intros e. apply if_grows; [|auto with logdb].
    apply catch_grows; [|intros; apply bind_grows; [apply logout_grows|auto with logdb]].
    apply bind_grows; auto with logdb. }
  unfold EnhancedApiService.request. unfold bind at 1.
  destruct (initialize_ok s) as [b Hb].
  pose proof (initialize_grows s) as Hg.
  destruct (EnhancedApiService.initialize s) as [r1 s1]; simpl in Hb, Hg; subst r1.
  destruct Hg as [l0 Hl0]. exists l0.
  unfold catch_ at 1. pose proof (api_request_adds ep s1) as Ha.
  destruct (ApiService.request ep s1) as [[a|e] s2]; simpl in *.
  - rewrite Ha, Hl0, <- app_assoc. done.
  - etrans; [|apply (Hh e)]. rewrite Ha, Hl0, <- app_assoc. done.
Qed.

(** ** Cached getters *)

Lemma getUserProfile_fetch_eq (force : bool) (s : St) :
  (force = true \/ store s !! StorageService.key_userProfile = None) ->
  EnhancedApiService.getUserProfile force s =
    (response <-- EnhancedApiService.request "/user" None ;;
     u <-- ApiService.success_and response "user" ;;
     (if truthy u then StorageService.storeUserProfile u ;;; ret tt else ret tt) ;;;
     ret response) s.
Proof.
  intros [->|Hnone]; [reflexivity|].
  destruct force; [reflexivity|].
  unfold EnhancedApiService.getUserProfile, bind at 1, StorageService.getUserProfile,
    StorageService.getItem at 1.
  rewrite Hnone. reflexivity.
Qed.

(** C8: with a truthy profile stored, [getUserProfile(false)] answers
    [{success: true, data: {user: <stored>}}] and leaves the whole state
    unchanged (no request is logged, no scripted answer consumed); with
    [forceRefresh] true, or with no stored profile, it requests /user, and
    when the response it returns has [success] and a truthy [data.user],
    that user is what the store holds afterwards. *)
Theorem getUserProfile_read_if_present (s : St) :
  (forall v, store s !! StorageService.key_userProfile = Some v -> truthy v = true ->
     EnhancedApiService.getUserProfile false s
       = (Ok (EnhancedApiService.cached_envelope "user" v), s))
  /\
  (forall force r s',
     (force = true \/ store s !! StorageService.key_userProfile = None) ->
     EnhancedApiService.getUserProfile force s = (r, s') ->
     (exists l0, (netlog s ++ l0 ++ ["/user"])%list `prefix_of` netlog s')
     /\ (forall response u, r = Ok response ->
           ApiService.success_field response "user" = Ok u -> truthy u = true ->
           store s' !! StorageService.key_userProfile = Some u)).
Proof.
  split.
  - intros v Hv Ht.
    unfold EnhancedApiService.getUserProfile, bind at 1, StorageService.getUserProfile,
      StorageService.getItem at 1.
    rewrite Hv, Ht. simpl. rewrite Ht. reflexivity.
  - intros force r s' Hcase Hrun.
    rewrite (getUserProfile_fetch_eq force s Hcase) in Hrun.
    destruct (request_grows_after "/user" None s) as [l0 Hl0].
    unfold bind at 1 in Hrun.
    destruct (EnhancedApiService.request "/user" None s) as [[resp|e] s1] eqn:Er;
      simpl in Hl0.
    + unfold ApiService.success_and, lift, bind in Hrun.
      destruct (ApiService.success_field resp "user") as [u|e] eqn:Eu.
      * destruct (truthy u) eqn:Etu; simpl in Hrun; injection Hrun as <- <-;
          (split; [exists l0; exact Hl0|]);
          intros response u' Hr Hu' Htu'; injection Hr as <-; rewrite Eu in Hu';
          injection Hu' as <-; [|congruence].
        simpl. apply lookup_insert_eq.
      * simpl in Hrun. injection Hrun as <- <-.
        split; [exists l0; exact Hl0|]. congruence.
    + injection Hrun as <- <-. split; [exists l0; exact Hl0|]. discriminate.
Qed.

Lemma getUserProfile_read_if_present_witness :
  EnhancedApiService.getUserProfile false
    (mkSt (<[StorageService.key_userProfile := JObj [("name", JStr "a")]]> ∅)
          JNull false true 0 utc_zone [] [])
  = (Ok (EnhancedApiService.cached_envelope "user" (JObj [("name", JStr "a")])),
     mkSt (<[StorageService.key_userProfile := JObj [("name", JStr "a")]]> ∅)
          JNull false true 0 utc_zone [] [])
  /\ (exists l0, ([] ++ l0 ++ ["/user"])%list `prefix_of`
        netlog (snd (EnhancedApiService.getUserProfile true (empty_state [Resp 200 ok_envelope])))).
Proof.
  split.
  - apply (proj1 (getUserProfile_read_if_present
                    (mkSt (<[StorageService.key_userProfile := JObj [("name", JStr "a")]]> ∅)
                          JNull false true 0 utc_zone [] []))); reflexivity.
  - destruct (EnhancedApiService.getUserProfile true (empty_state [Resp 200 ok_envelope]))
      as [r s'] eqn:E.
    exact (proj1 (proj2 (getUserProfile_read_if_present (empty_state [Resp 200 ok_envelope]))
                    true r s' (or_introl eq_refl) E)).
Defined.

(** ** Single-flight refresh *)

Lemma calls_pending (n : nat) (f : SingleFlight.FSt) (p : nat) :
  SingleFlight.refreshPromise f = Some p ->
  SingleFlight.calls n f = (f, replicate n p).
Proof.
  intros Hp. induction n as [|n IH]; [reflexivity|].
  simpl. unfold SingleFlight.call. rewrite Hp, IH. reflexivity.
Qed.

Lemma count_endpoint_app (ep : string) (l1 l2 : list string) :
  SingleFlight.count_endpoint ep (l1 ++ l2)%list
  = (SingleFlight.count_endpoint ep l1 + SingleFlight.count_endpoint ep l2)%nat.
Proof. unfold SingleFlight.count_endpoint. by rewrite filter_app, length_app. Qed.

(** C2: from a state with no refresh pending, [n >= 2] callers of
    [refreshToken()] arriving before the answer all get the same promise;
    when the server answers, exactly one request to /refresh has been made
    and every caller receives the outcome of that one refresh. *)
Theorem refresh_single_flight (n : nat) (f : SingleFlight.FSt) :
  2 <= n ->
  SingleFlight.refreshPromise f = None ->
  let '(f1, ps) := SingleFlight.calls n f in
  let f2 := SingleFlight.settle f1 in
  length ps = n
  /\ (forall p q, p ∈ ps -> q ∈ ps -> p = q)
  /\ SingleFlight.count_endpoint "/refresh" (netlog (SingleFlight.seq f2))
     = S (SingleFlight.count_endpoint "/refresh" (netlog (SingleFlight.seq f)))
  /\ (forall p, p ∈ ps ->
        SingleFlight.outcome f2 p
        = Some (fst (EnhancedApiService.refreshToken (SingleFlight.seq f)))).
Proof.
  intros Hn Hidle.
  destruct n as [|n]; [lia|].
  destruct f as [sq rp nid st]; simpl in Hidle; subst rp.
  simpl. unfold SingleFlight.call. simpl.
  rewrite (calls_pending n (SingleFlight.mkF sq (Some nid) (S nid) st) nid eq_refl).
  unfold SingleFlight.settle. simpl.
  pose proof (refreshToken_adds sq) as Hlog.
  destruct (EnhancedApiService.refreshToken sq) as [r s'] eqn:Er. simpl in *.
  split; [by rewrite length_replicate|].
  split.
  { intros p q Hp Hq.
    apply elem_of_cons in Hp as [->|Hp]; apply elem_of_cons in Hq as [->|Hq];
      repeat match goal with H : _ ∈ replicate _ _ |- _ => apply elem_of_replicate in H as [-> _] end;
      done. }
  split.
  { rewrite Hlog, count_endpoint_app.
    assert (SingleFlight.count_endpoint "/refresh" ["/refresh"] = 1%nat) as -> by reflexivity.
    lia. }
  intros p Hp.
  assert (p = nid) as ->.
  { apply elem_of_cons in Hp as [->|Hp]; [done|]. by apply elem_of_replicate in Hp as [-> _]. }
  unfold SingleFlight.outcome. simpl.
  rewrite decide_True by done. reflexivity.
Qed.

Lemma refresh_single_flight_witness :
  2 <= 3 /\ SingleFlight.refreshPromise (SingleFlight.mkF (session_state [Resp 401 (JObj [])]) None 0 []) = None
  /\ (let '(f1, ps) := SingleFlight.calls 3 (SingleFlight.mkF (session_state [Resp 401 (JObj [])]) None 0 []) in
      let f2 := SingleFlight.settle f1 in
      length ps = 3
      /\ (forall p q, p ∈ ps -> q ∈ ps -> p = q)
      /\ SingleFlight.count_endpoint "/refresh" (netlog (SingleFlight.seq f2))
         = S (SingleFlight.count_endpoint "/refresh"
                (netlog (SingleFlight.seq (SingleFlight.mkF (session_state [Resp 401 (JObj [])]) None 0 []))))
      /\ (forall p, p ∈ ps ->
            SingleFlight.outcome f2 p
            = Some (fst (EnhancedApiService.refreshToken
                           (SingleFlight.seq (SingleFlight.mkF (session_state [Resp 401 (JObj [])]) None 0 [])))))).
Proof.
  split; [lia|]. split; [reflexivity|].
  apply (refresh_single_flight 3 (SingleFlight.mkF (session_state [Resp 401 (JObj [])]) None 0 []));
    [lia|reflexivity].
Defined.

(** ** Concurrent initialization *)

(** C6, counterexample: two callers of [initialize()] issued before either
    completes (schedule: caller 0, caller 1, 0, 1, 0, 1) both read the
    stored token and both check its expiry: the work is done twice, the
    second caller does not wait for the first one's attempt. *)
Lemma initialize_not_coalesced :
  ~ (forall sched : list nat,
       ConcurrentInit.token_reads
         (snd (ConcurrentInit.run sched [ConcurrentInit.IStart; ConcurrentInit.IStart]
                 uninit_with_token)) <= 1).
Proof.
  intros H. specialize (H [0; 1; 0; 1; 0; 1]). vm_compute in H. lia.
Qed.

Create HintDb initdb.

Lemma ret_keeps_init {A} (a : A) : keeps_init (ret a).
Proof. intros s. reflexivity. Qed.
Lemma throw_keeps_init {A} (e : jserr) : keeps_init (A:=A) (throw e).
Proof. intros s. reflexivity. Qed.
Lemma lift_keeps_init {A} (r : result A) : keeps_init (lift r).
Proof. intros s. reflexivity. Qed.
Lemma setItem_keeps_init k v : keeps_init (StorageService.setItem k v).
Proof. intros s. reflexivity. Qed.
Lemma getItem_keeps_init k : keeps_init (StorageService.getItem k).
Proof. intros s. reflexivity. Qed.
Lemma fetch_keeps_init ep : keeps_init (ApiService.fetch ep).
Proof. intros s. unfold ApiService.fetch. by destruct (script s). Qed.
Lemma setToken_keeps_init t : keeps_init (ApiService.setToken t).
Proof. intros s. reflexivity. Qed.
Lemma clearToken_keeps_init : keeps_init ApiService.clearToken.
Proof. intros s. reflexivity. Qed.
Lemma clearAuthData_keeps_init : keeps_init StorageService.clearAuthData.
Proof. intros s. by rewrite clearAuthData_eq. Qed.
Lemma isTokenExpired_keeps_init : keeps_init StorageService.isTokenExpired.
Proof. intros s. reflexivity. Qed.
Lemma storeExpiry24h_keeps_init : keeps_init EnhancedApiService.storeExpiry24h.
Proof.
  intros s. unfold EnhancedApiService.storeExpiry24h.
  by destruct (Z.abs (EnhancedApiService.expiry24h s) <=? EnhancedApiService.max_time)%Z.
Qed.

Lemma bind_keeps_init {A B} (m : M A) (k : A -> M B) :
  keeps_init m -> (forall a, keeps_init (k a)) -> keeps_init (bind m k).
Proof.
  intros Hm Hk s. unfold bind. specialize (Hm s).
  destruct (m s) as [[a|e] s1]; simpl in *; [rewrite Hk|]; done.
Qed.

Lemma catch_keeps_init {A} (m : M A) (h : jserr -> M A) :
  keeps_init m -> (forall e, keeps_init (h e)) -> keeps_init (catch_ m h).
Proof.
  intros Hm Hh s. unfold catch_. specialize (Hm s).
  destruct (m s) as [[a|e] s1]; simpl in *; [|rewrite Hh]; done.
Qed.

Lemma if_keeps_init {A} (b : bool) (m1 m2 : M A) :
  keeps_init m1 -> keeps_init m2 -> keeps_init (if b then m1 else m2).
Proof. by destruct b. Qed.

#[local] Hint Resolve ret_keeps_init throw_keeps_init lift_keeps_init setItem_keeps_init
  getItem_keeps_init fetch_keeps_init setToken_keeps_init clearToken_keeps_init
  clearAuthData_keeps_init isTokenExpired_keeps_init storeExpiry24h_keeps_init : initdb.

Ltac keeps_init :=
  repeat match goal with
  | |- forall _, _ => intro
  | |- keeps_init (bind _ _) => apply bind_keeps_init
  | |- keeps_init (catch_ _ _) => apply catch_keeps_init
  | |- keeps_init (if _ then _ else _) => apply if_keeps_init
  | |- keeps_init _ => solve [auto with initdb]
  end.

Lemma api_request_keeps_init ep : keeps_init (ApiService.request ep).
Proof.
  unfold ApiService.request. apply bind_keeps_init; [auto with initdb|].
  intros [status data|m]; [|auto with initdb].
  destruct (ApiService.response_ok status); keeps_init.
Qed.

#[local] Hint Resolve api_request_keeps_init : initdb.

Lemma refreshToken_keeps_init : keeps_init EnhancedApiService.refreshToken.
Proof.
  unfold EnhancedApiService.refreshToken, ApiService.refreshToken, ApiService.success_and.
  keeps_init.
Qed.

(** A step of a thread never unsets [isInitialized]. *)
Lemma step_thread_keeps_init (p : ConcurrentInit.pc) (i : ConcurrentInit.ISt) :
  is_init (ConcurrentInit.g i) = true ->
  is_init (ConcurrentInit.g (snd (ConcurrentInit.step_thread p i))) = true.
Proof.
  intros Hi. destruct p as [|token|isExpired|r]; simpl.
  - by rewrite Hi.
  - destruct (truthy token); [|reflexivity].
    (* [isTokenExpired] only reads the store *)
    exact Hi.
  - destruct isExpired; [|reflexivity].
    pose proof (refreshToken_keeps_init (ConcurrentInit.g i)) as H.
    destruct (EnhancedApiService.refreshToken _) as [[a|e] s2]; simpl in *; [reflexivity|].
    rewrite H; exact Hi.
  - exact Hi.
Qed.

(** C6, as the code does it: a call that finds [isInitialized] set returns
    [true] at once and changes nothing. A call started while it is unset,
    whatever other calls are in flight, reads the stored token, and a call
    that found a truthy token checks its expiry. A call that returns
    [true] leaves [isInitialized] set, and no later step of any call unsets
    it, so every call made after it is the no-op above. *)
Theorem initialize_guard_after_completion :
  (forall i, is_init (ConcurrentInit.g i) = true ->
     ConcurrentInit.step_thread ConcurrentInit.IStart i = (ConcurrentInit.IDone true, i))
  /\ (forall ths i k token,
        is_init (ConcurrentInit.g i) = false ->
        ths !! k = Some ConcurrentInit.IStart ->
        fst (StorageService.getAuthToken (ConcurrentInit.g i)) = Ok token ->
        ConcurrentInit.run [k] ths i
        = (<[k := ConcurrentInit.IGotToken token]> ths,
           ConcurrentInit.mkI (ConcurrentInit.g i) (S (ConcurrentInit.token_reads i))
                              (ConcurrentInit.expiry_reads i)))
  /\ (forall ths i k token,
        ths !! k = Some (ConcurrentInit.IGotToken token) -> truthy token = true ->
        ConcurrentInit.expiry_reads (snd (ConcurrentInit.run [k] ths i))
        = S (ConcurrentInit.expiry_reads i))
  /\ (forall p i, (forall r, p <> ConcurrentInit.IDone r) ->
        fst (ConcurrentInit.step_thread p i) = ConcurrentInit.IDone true ->
        is_init (ConcurrentInit.g (snd (ConcurrentInit.step_thread p i))) = true)
  /\ (forall sched ths i, is_init (ConcurrentInit.g i) = true ->
        is_init (ConcurrentInit.g (snd (ConcurrentInit.run sched ths i))) = true).
Proof.
  split; [|split; [|split; [|split]]].
  - intros i Hi. simpl. by rewrite Hi.
  - intros ths i k token Hi Hk Ht. simpl. rewrite Hk. simpl. rewrite Hi.
    unfold StorageService.getAuthToken, StorageService.getItem in *. simpl in Ht.
    injection Ht as <-. reflexivity.
  - intros ths i k token Hk Ht. simpl. rewrite Hk. simpl. rewrite Ht. reflexivity.
  - intros p i Hp Hd. destruct p as [|token|isExpired|r]; simpl in *.
    + destruct (is_init (ConcurrentInit.g i)) eqn:E; [done|]. discriminate.
    + destruct (truthy token); [discriminate|reflexivity].
    + destruct isExpired; [|reflexivity].
      destruct (EnhancedApiService.refreshToken _) as [[a|e] s2]; simpl in *;
        [reflexivity|discriminate].
    + by destruct (Hp r).
  - induction sched as [|k sched IH]; intros ths i Hi; simpl; [exact Hi|].
    destruct (ths !! k) as [p|]; [|by apply IH].
    pose proof (step_thread_keeps_init p i Hi) as H.
    destruct (ConcurrentInit.step_thread p i) as [p' i']. by apply IH.
Qed.

Lemma initialize_guard_after_completion_witness :
  ConcurrentInit.step_thread ConcurrentInit.IStart
    (ConcurrentInit.mkI (empty_state []) 0 0)
  = (ConcurrentInit.IDone true, ConcurrentInit.mkI (empty_state []) 0 0)
  /\ ConcurrentInit.run [1%nat]
       [ConcurrentInit.IGotToken (JStr "tok"); ConcurrentInit.IStart] uninit_with_token
     = ([ConcurrentInit.IGotToken (JStr "tok"); ConcurrentInit.IGotToken (JStr "tok")],
        ConcurrentInit.mkI (ConcurrentInit.g uninit_with_token) 1 0)
  /\ ConcurrentInit.expiry_reads
       (snd (ConcurrentInit.run [0%nat]
               [ConcurrentInit.IGotToken (JStr "tok"); ConcurrentInit.IStart] uninit_with_token))
     = 1%nat
  /\ is_init (ConcurrentInit.g (snd (ConcurrentInit.step_thread
                                      (ConcurrentInit.IGotExpiry false) uninit_with_token))) = true
  /\ is_init (ConcurrentInit.g (snd (ConcurrentInit.run [0%nat; 0%nat; 1%nat]
                                      [ConcurrentInit.IStart; ConcurrentInit.IStart]
                                      (ConcurrentInit.mkI (empty_state []) 0 0)))) = true.
Proof.
  destruct initialize_guard_after_completion as (H1 & H2 & H3 & H4 & H5).
  split; [apply H1; reflexivity|].
  split; [apply (H2 [ConcurrentInit.IGotToken (JStr "tok"); ConcurrentInit.IStart]
                   uninit_with_token 1%nat (JStr "tok")); reflexivity|].
  split; [apply (H3 [ConcurrentInit.IGotToken (JStr "tok"); ConcurrentInit.IStart]
                   uninit_with_token 0%nat (JStr "tok")); reflexivity|].
  split; [apply (H4 (ConcurrentInit.IGotExpiry false) uninit_with_token);
          [intros r; discriminate|reflexivity]|].
  apply H5. reflexivity.
Defined.

(** ** Logout cleanup *)

Lemma api_logout_frame (s : St) (r : result jsval) (s1 : St) :
  ApiService.logout s = (r, s1) ->
  store s1 = store s
  /\ (forall response ok, r = Ok response -> get_prop response "success" = Ok ok ->
        truthy ok = false -> api_token s1 = api_token s)
  /\ (forall response ok, r = Ok response -> get_prop response "success" = Ok ok ->
        truthy ok = true -> api_token s1 = JNull).
Proof.
  unfold ApiService.logout, ApiService.request, ApiService.fetch, bind, prop, lift, throw, ret,
    ApiService.clearToken.
  destruct (script s) as [|[status data|m] rest]; simpl.
  - intros [= <- <-]. split; [done|]. split; discriminate.
  - destruct (ApiService.response_ok status).
    + destruct (get_prop data "success") as [ok0|e] eqn:Eok; simpl.
      * destruct (truthy ok0) eqn:Et; intros [= <- <-]; simpl; (split; [done|]);
          split; intros response ok [= <-] Hok Ht; rewrite Eok in Hok;
          injection Hok as <-; congruence.
      * intros [= <- <-]. split; [done|]. split; discriminate.
    + destruct (get_prop data "message"); intros [= <- <-]; split; [done| |done|];
        split; discriminate.
  - intros [= <- <-]. split; [done|]. split; discriminate.
Qed.

Lemma fold_delete_lookup (keys : list string) (m : gmap string jsval) (k : string) :
  k ∈ keys -> fold_right (fun k m => delete k m) m keys !! k = None.
Proof.
  induction keys as [|k' keys IH]; intros Hk; [inversion Hk|]. simpl.
  destruct (decide (k = k')) as [->|Hne]; [apply lookup_delete_eq|].
  rewrite lookup_delete_ne by done. apply IH.
  apply elem_of_cons in Hk as [->|Hk]; [done|exact Hk].
Qed.

(** C3, as the code does it: [logout()] runs its local cleanup
    ([clearAuthData()] then [clearToken()]) only when the remote logout
    resolves with a truthy [success] or rejects. On a resolved envelope
    whose [success] is falsy, [EnhancedApiService.logout] returns that
    envelope and the in-memory token and every persisted key stay as they
    were. In the two other cases, given a cleanup that removes the six keys
    and resolves, the token is [null] and none of the six keys is left;
    the envelope is returned, or the remote error rethrown. *)
Theorem logout_cleanup_cases (s : St) :
  (forall response s1 ok,
     ApiService.logout s = (Ok response, s1) ->
     get_prop response "success" = Ok ok -> truthy ok = false ->
     EnhancedApiService.logout s = (Ok response, s1)
     /\ store s1 = store s /\ api_token s1 = api_token s)
  /\ (forall clear : M jsval, clear_removes clear ->
        (forall response s1 ok r s2,
           ApiService.logout s = (Ok response, s1) ->
           get_prop response "success" = Ok ok -> truthy ok = true ->
           EnhancedApiService.logout_with clear s = (r, s2) ->
           r = Ok response /\ api_token s2 = JNull
           /\ forall k, k ∈ auth_keys -> store s2 !! k = None)
        /\ (forall e s1 r s2,
              ApiService.logout s = (Err e, s1) ->
              EnhancedApiService.logout_with clear s = (r, s2) ->
              r = Err e /\ api_token s2 = JNull
              /\ forall k, k ∈ auth_keys -> store s2 !! k = None)).
Proof.
  split; [|intros clear Hclear; split].
  - intros response s1 ok Hl Hok Ht.
    destruct (api_logout_frame s _ s1 Hl) as (Hst & Htok & _).
    unfold EnhancedApiService.logout, EnhancedApiService.logout_with.
    unfold catch_, bind at 1. rewrite Hl.
    unfold bind at 1, prop, lift. rewrite Hok, Ht. simpl.
    split; [reflexivity|]. split; [exact Hst|]. by apply (Htok response ok).
  - intros response s1 ok r s2 Hl Hok Ht Hrun.
    unfold EnhancedApiService.logout_with in Hrun.
    unfold catch_, bind at 1 in Hrun. rewrite Hl in Hrun.
    unfold bind at 1, prop, lift in Hrun. rewrite Hok, Ht in Hrun. simpl in Hrun.
    unfold bind in Hrun. rewrite Hclear in Hrun.
    unfold ApiService.clearToken, ret, throw in Hrun. cbv beta iota in Hrun.
    injection Hrun as <- <-.
    split; [done|]. split; [done|]. intros k Hk. exact (fold_delete_lookup _ _ _ Hk).
  - intros e s1 r s2 Hl Hrun.
    unfold EnhancedApiService.logout_with in Hrun.
    unfold catch_, bind at 1 in Hrun. rewrite Hl in Hrun.
    unfold bind in Hrun. rewrite Hclear in Hrun.
    unfold ApiService.clearToken, ret, throw in Hrun. cbv beta iota in Hrun.
    injection Hrun as <- <-.
    split; [done|]. split; [done|]. intros k Hk. exact (fold_delete_lookup _ _ _ Hk).
Qed.

Lemma logout_cleanup_cases_witness :
  EnhancedApiService.logout
    (session_state [Resp 200 (JObj [("success", JBool false)])])
  = (Ok (JObj [("success", JBool false)]),
     mkSt (store (session_state [])) (JStr "tok") true true 0 utc_zone [] ["/logout"])
  /\ api_token (snd (EnhancedApiService.logout_with remove_auth_keys
                       (session_state [Resp 200 ok_envelope]))) = JNull
  /\ api_token (snd (EnhancedApiService.logout_with remove_auth_keys
                       (session_state [Resp 500 (JObj [])]))) = JNull.
Proof.
  destruct (logout_cleanup_cases
              (session_state [Resp 200 (JObj [("success", JBool false)])])) as (H1 & _).
  destruct (logout_cleanup_cases (session_state [Resp 200 ok_envelope])) as (_ & H2).
  destruct (logout_cleanup_cases (session_state [Resp 500 (JObj [])])) as (_ & H3).
  split; [|split].
  - apply (H1 (JObj [("success", JBool false)])
              (mkSt (store (session_state [])) (JStr "tok") true true 0 utc_zone [] ["/logout"])
              (JBool false)); reflexivity.
  - destruct (H2 remove_auth_keys (fun s => eq_refl)) as (H2' & _).
    destruct (EnhancedApiService.logout_with remove_auth_keys (session_state [Resp 200 ok_envelope]))
      as [r s2] eqn:E.
    exact (proj1 (proj2 (H2' ok_envelope
              (mkSt (store (session_state [])) JNull false true 0 utc_zone [] ["/logout"])
              (JBool true) r s2 eq_refl eq_refl eq_refl eq_refl))).
  - destruct (H3 remove_auth_keys (fun s => eq_refl)) as (_ & H3').
    destruct (EnhancedApiService.logout_with remove_auth_keys (session_state [Resp 500 (JObj [])]))
      as [r s2] eqn:E.
    exact (proj1 (proj2 (H3' (EError "HTTP 500")
              (mkSt (store (session_state [])) (JStr "tok") true true 0 utc_zone [] ["/logout"])
              r s2 eq_refl eq_refl))).
Defined.

(** C3, counterexample: when the remote logout resolves with
    [{success: false}], [logout()] leaves the in-memory token ("tok") and
    the stored auth token in place: the cleanup is not unconditional. *)
Lemma logout_keeps_session_on_failure_envelope :
  ~ (forall s : St,
       api_token (snd (EnhancedApiService.logout s)) = JNull
       /\ forall k, k ∈ auth_keys -> store (snd (EnhancedApiService.logout s)) !! k = None).
Proof.
  intros H.
  destruct (H (session_state [Resp 200 (JObj [("success", JBool false)])])) as [Htok _].
  vm_compute in Htok. discriminate.
Qed.

Lemma highest_role_level_behaviour_witness :
  [AuthProvider.mkRole "owner" 2; AuthProvider.mkRole "admin" 4] <> []
  /\ (exists r, r ∈ [AuthProvider.mkRole "owner" 2; AuthProvider.mkRole "admin" 4]
        /\ AuthProvider.role_level r
           = AuthProvider.getHighestRoleLevel
               [AuthProvider.mkRole "owner" 2; AuthProvider.mkRole "admin" 4]).
Proof.
  split; [discriminate|].
  destruct highest_role_level_behaviour as (_ & H & _).
  apply (H [AuthProvider.mkRole "owner" 2; AuthProvider.mkRole "admin" 4]). discriminate.
Defined.

(** ** Extra: storage *)

(** [getItem(k')] right after [setItem(k, v)]: on the same key it answers
    [v] when [v] is truthy and [null] for a falsy [v] ([false], [0], [""]);
    on another key it answers what it answered before. *)
Theorem setItem_getItem (k k' : string) (v : jsval) (s : St) :
  fst ((StorageService.setItem k v ;;; StorageService.getItem k') s)
  = if bool_decide (k = k') then Ok (if truthy v then v else JNull)
    else fst (StorageService.getItem k' s).
Proof.
  unfold bind, StorageService.setItem, StorageService.getItem; simpl.
  case_bool_decide as Hk.
  - subst. by rewrite lookup_insert_eq.
  - by rewrite lookup_insert_ne.
Qed.

(** [getItem(k')] right after [removeItem(k)]: [null] on the same key, the
    previous answer on any other key. *)
Theorem removeItem_getItem (k k' : string) (s : St) :
  fst ((StorageService.removeItem k ;;; StorageService.getItem k') s)
  = if bool_decide (k = k') then Ok JNull else fst (StorageService.getItem k' s).
Proof.
  unfold bind, StorageService.removeItem, StorageService.getItem; simpl.
  case_bool_decide as Hk.
  - subst. by rewrite lookup_delete_eq.
  - by rewrite lookup_delete_ne.
Qed.

(** [isStorageWorking()] always resolves to [true] and its only effect on
    the storage is to delete [storage_test_key] (a value stored there
    before is lost). *)
Theorem isStorageWorking_effect (s : St) :
  StorageService.isStorageWorking s
  = (Ok (JBool true), set_store (delete StorageService.testKey (store s)) s).
Proof.
  unfold StorageService.isStorageWorking, catch_, bind, StorageService.setItem,
    StorageService.getItem, StorageService.removeItem, ret; simpl.
  rewrite lookup_insert_eq. simpl. by rewrite delete_insert_eq.
Qed.

(** [getStorageInfo()] never fails and leaves the state as it is;
    [totalKeys] is the number of stored keys, [authKeys] is at most 7 and at
    most [totalKeys], [otherKeys] is their difference and is never negative,
    and [secureStoreAvailable] is false. *)
Theorem getStorageInfo_counts (s : St) :
  exists info, StorageService.getStorageInfo s = (Ok info, s)
  /\ StorageService.totalKeys info = size (store s)
  /\ (StorageService.authKeys info <= 7)%nat
  /\ (StorageService.authKeys info <= StorageService.totalKeys info)%nat
  /\ StorageService.otherKeys info
     = (Z.of_nat (StorageService.totalKeys info) - Z.of_nat (StorageService.authKeys info))%Z
  /\ (0 <= StorageService.otherKeys info)%Z
  /\ StorageService.secureStoreAvailable info = false.
Proof.
  eexists. split; [reflexivity|]. simpl.
  set (allKeys := (map_to_list (store s)).*1).
  set (l := filter (fun k => k ∈ allKeys) StorageService.key_values).
  assert (Hl : (length l <= length allKeys)%nat).
  { apply NoDup_incl_length.
    - apply NoDup_ListNoDup. apply NoDup_filter. apply (bool_decide_unpack _). by vm_compute.
    - intros k Hk. apply list_elem_of_In in Hk. apply list_elem_of_In.
      apply list_elem_of_filter in Hk. apply Hk. }
  assert (Hlen : length allKeys = size (store s)).
  { unfold allKeys. rewrite length_fmap. apply length_map_to_list. }
  assert (H7 : (length l <= 7)%nat).
  { unfold l. etrans; [apply length_filter|]. simpl. lia. }
  repeat split; try lia; assumption.
Qed.

(** ** Extra: password validation *)

Lemma test_class_app (cls : Ascii.ascii -> bool) (p q : string) :
  ApiService.test_class cls p = true -> ApiService.test_class cls (p ++ q) = true.
Proof.
  unfold ApiService.test_class. induction p as [|c p IH]; simpl; [discriminate|].
  destruct (cls c); simpl; [done|]. exact IH.
Qed.

(** A password shorter than 8 characters is never valid, whatever
    characters it holds. *)
Theorem validatePassword_too_short (password : string) :
  (String.length password < 8)%nat ->
  ApiService.isValid (ApiService.validatePassword password) = false
  /\ ApiService.d_minLength (ApiService.validatePassword password) = false.
Proof.
  intros H.
  assert (Hb : Nat.leb ApiService.minLength (String.length password) = false)
    by (apply Nat.leb_gt; unfold ApiService.minLength; lia).
  unfold ApiService.validatePassword. rewrite Hb. done.
Qed.

(** Appending characters to a valid password keeps it valid. *)
Theorem validatePassword_append (p q : string) :
  ApiService.isValid (ApiService.validatePassword p) = true ->
  ApiService.isValid (ApiService.validatePassword (p ++ q)) = true.
Proof.
  unfold ApiService.validatePassword. cbn [ApiService.isValid].
  intros H. apply andb_prop in H as [H Hs]. apply andb_prop in H as [H Hn].
  apply andb_prop in H as [H Hl]. apply andb_prop in H as [Hm Hu].
  apply Nat.leb_le in Hm.
  assert (Hlen : String.length (p ++ q) = (String.length p + String.length q)%nat)
    by (clear; induction p as [|c p IH]; simpl; [done|by rewrite IH]).
  rewrite Hlen.
  rewrite !test_class_app by assumption.
  replace (Nat.leb ApiService.minLength (String.length p + String.length q)) with true
    by (symmetry; apply Nat.leb_le; lia).
  done.
Qed.

(** ** Extra: AuthProvider role and permission checks *)

(** [isAdmin()] implies [isSectorAdmin()], which implies
    [isPropertyOwner()]; a user without roles is not even a property owner. *)
Theorem role_checks_nested (roles : list AuthProvider.role) :
  (AuthProvider.isAdmin roles = true -> AuthProvider.isSectorAdmin roles = true)
  /\ (AuthProvider.isSectorAdmin roles = true -> AuthProvider.isPropertyOwner roles = true)
  /\ AuthProvider.isPropertyOwner [] = false.
Proof.
  unfold AuthProvider.isAdmin, AuthProvider.isSectorAdmin, AuthProvider.isPropertyOwner.
  split; [|split; [|reflexivity]]; intros H; apply Z.leb_le in H; apply Z.leb_le; lia.
Qed.

(** When [hasRole(name)] holds, some role of that name is among the user's
    roles and its level is at most [getHighestRoleLevel()]. *)
Theorem hasRole_level_bound (roles : list AuthProvider.role) (name : string) :
  AuthProvider.hasRole roles name = true ->
  exists r, r ∈ roles /\ AuthProvider.role_name r = name
         /\ (AuthProvider.role_level r <= AuthProvider.getHighestRoleLevel roles)%Z.
Proof.
  unfold AuthProvider.hasRole. intros H. apply existsb_exists in H as [r [Hin Hn]].
  apply String.eqb_eq in Hn. exists r. split; [by apply list_elem_of_In|]. split; [done|].
  destruct roles as [|r0 rs]; [inversion Hin|]. simpl.
  destruct (fold_max_bounds (map AuthProvider.role_level rs) (AuthProvider.role_level r0))
    as (H1 & H2 & _).
  destruct Hin as [<-|Hin]; [done|].
  apply H2. apply list_elem_of_In. by apply in_map.
Qed.

(** ** Extra: EnhancedApiService requests *)

Lemma logout_adds : log_adds ["/logout"] EnhancedApiService.logout.
Proof.
  unfold EnhancedApiService.logout, EnhancedApiService.logout_with.
  apply catch_adds; [|auto with logdb].
  apply bind_adds; [apply api_logout_adds|]. auto with logdb.
Qed.

Lemma logout_throw_adds (e : jserr) :
  log_adds ["/logout"] (A:=jsval) (EnhancedApiService.logout ;;; throw e).
Proof. apply bind_adds; [apply logout_adds|auto with logdb]. Qed.

Lemma kept_maybe {A} l (m : M A) : log_kept m -> log_maybe l m.
Proof. intros H s. left. apply H. Qed.

Lemma adds_maybe {A} l (m : M A) : log_adds l m -> log_maybe l m.
Proof. intros H s. right. apply H. Qed.

Lemma bind_maybe_l {A B} l (m : M A) (k : A -> M B) :
  log_maybe l m -> (forall a, log_kept (k a)) -> log_maybe l (bind m k).
Proof.
  intros Hm Hk s. unfold bind. specialize (Hm s).
  destruct (m s) as [[a|e] s1]; simpl in *; [rewrite Hk|]; done.
Qed.

Lemma bind_maybe_r {A B} l (m : M A) (k : A -> M B) :
  log_kept m -> (forall a, log_maybe l (k a)) -> log_maybe l (bind m k).
Proof.
  intros Hm Hk s. unfold bind. specialize (Hm s).
  destruct (m s) as [[a|e] s1]; simpl in *; [rewrite <- Hm; apply Hk|left; done].
Qed.

Lemma catch_maybe {A} l (m : M A) (h : jserr -> M A) :
  log_maybe l m -> (forall e, log_kept (h e)) -> log_maybe l (catch_ m h).
Proof.
  intros Hm Hh s. unfold catch_. specialize (Hm s).
  destruct (m s) as [[a|e] s1]; simpl in *; [|rewrite Hh]; done.
Qed.

Lemma initialize_log : log_maybe ["/refresh"] EnhancedApiService.initialize.
Proof.
  unfold EnhancedApiService.initialize.
  apply bind_maybe_r; [intros s; reflexivity|]. intros inited.
  destruct inited; [apply kept_maybe; auto with logdb|].
  apply catch_maybe; [|auto with logdb].
  apply bind_maybe_r; [auto with logdb|]. intros token.
  apply bind_maybe_l; [|intros _; apply bind_kept; [intros s; reflexivity|auto with logdb]].
  destruct (truthy token); [|apply kept_maybe; auto with logdb].
  apply bind_maybe_r; [auto with logdb|]. intros _.
  apply bind_maybe_r; [auto with logdb|]. intros b.
  destruct b; [|apply kept_maybe; auto with logdb].
  apply bind_maybe_l; [apply adds_maybe, refreshToken_adds|auto with logdb].
Qed.

Lemma request_no_auth_eq (ep : string) (s : St) :
  EnhancedApiService.request ep (Some false) s
  = (EnhancedApiService.initialize ;;; ApiService.request ep) s.
Proof.
  unfold EnhancedApiService.request, bind.
  destruct (EnhancedApiService.initialize s) as [[b|e] s1]; [|done].
  unfold catch_. destruct (ApiService.request ep s1) as [[a|e] s2]; [done|].
  simpl. by rewrite andb_false_r.
Qed.

(** [register], [forgotPassword], [resetPassword] and [verifyResetToken]
    (which pass [requireAuth: false]) behave exactly as [initialize()]
    followed by the plain [apiService.request]: a 401 never triggers a
    refresh, a retry or a logout, and errors reach the caller unchanged. *)
Theorem no_auth_proxies_skip_refresh (s : St) :
  EnhancedApiService.register s
    = (EnhancedApiService.initialize ;;; ApiService.request "/register") s
  /\ EnhancedApiService.forgotPassword s
    = (EnhancedApiService.initialize ;;; ApiService.request "/forgot-password") s
  /\ EnhancedApiService.resetPassword s
    = (EnhancedApiService.initialize ;;; ApiService.request "/reset-password") s
  /\ EnhancedApiService.verifyResetToken s
    = (EnhancedApiService.initialize ;;; ApiService.request "/verify-reset-token") s.
Proof. repeat split; apply request_no_auth_eq. Qed.

(** The requests [enhancedApiService.request(ep)] sends: at most one
    [/refresh] from [initialize()], then [ep], then either nothing or one
    [/refresh] followed by a retry of [ep], a [/logout], or a retry and a
    [/logout]; [ep] is never requested more than twice. *)
Theorem request_log_shape (ep : string) (o : option bool) (s : St) :
  exists l0 l1,
    netlog (snd (EnhancedApiService.request ep o s)) = (netlog s ++ l0 ++ l1)%list
    /\ (l0 = [] \/ l0 = ["/refresh"])
    /\ (l1 = [ep] \/ l1 = [ep; "/refresh"; ep] \/ l1 = [ep; "/refresh"; "/logout"]
        \/ l1 = [ep; "/refresh"; ep; "/logout"]).
Proof.
  unfold EnhancedApiService.request. unfold bind at 1.
  destruct (initialize_ok s) as [b Hb].
  pose proof (initialize_log s) as Hi.
  destruct (EnhancedApiService.initialize s) as [r1 s1]; simpl in Hb, Hi; subst r1.
  assert (H0 : exists l0, netlog s1 = (netlog s ++ l0)%list /\ (l0 = [] \/ l0 = ["/refresh"])).
  { destruct Hi as [Hi|Hi]; [exists []; rewrite app_nil_r|exists ["/refresh"]]; auto. }
  destruct H0 as (l0 & Hl0 & Hl0'). exists l0.
  unfold catch_ at 1. pose proof (api_request_adds ep s1) as H1.
  destruct (ApiService.request ep s1) as [[a|e] s2]; simpl in H1 |- *.
  { exists [ep]. rewrite H1, Hl0, <- app_assoc. auto. }
  destruct (str_includes (err_message e) "401" && EnhancedApiService.not_false o); cycle 1.
  { exists [ep]. unfold throw. simpl. rewrite H1, Hl0, <- app_assoc. auto. }
  unfold catch_, bind. pose proof (refreshToken_adds s2) as H2.
  destruct (EnhancedApiService.refreshToken s2) as [[a|e'] s3]; simpl in H2.
  - pose proof (api_request_adds ep s3) as H3.
    destruct (ApiService.request ep s3) as [[a'|e''] s4]; simpl in H3 |- *.
    + exists [ep; "/refresh"; ep]. rewrite H3, H2, H1, Hl0, <- !app_assoc. auto 6.
    + exists [ep; "/refresh"; ep; "/logout"].
      pose proof (logout_throw_adds EnhancedApiService.session_expired s4) as H4.
      unfold bind in H4. rewrite H4, H3, H2, H1, Hl0, <- !app_assoc. auto 6.
  - exists [ep; "/refresh"; "/logout"].
    pose proof (logout_throw_adds EnhancedApiService.session_expired s3) as H4.
    unfold bind in H4. rewrite H4, H2, H1, Hl0, <- !app_assoc. auto 6.
Qed.

(** ** Extra: the authentication flag *)

Create HintDb authdb.

Lemma ret_keeps {A} (a : A) : keeps_auth (ret a).
Proof. intros s H. exact H. Qed.
Lemma throw_keeps {A} (e : jserr) : keeps_auth (A:=A) (throw e).
Proof. intros s H. exact H. Qed.
Lemma lift_keeps {A} (r : result A) : keeps_auth (lift r).
Proof. intros s H. exact H. Qed.
Lemma prop_keeps (v : jsval) (k : string) : keeps_auth (prop v k).
Proof. intros s H. exact H. Qed.
Lemma setItem_keeps k v : keeps_auth (StorageService.setItem k v).
Proof. intros s H. exact H. Qed.
Lemma getItem_keeps k : keeps_auth (StorageService.getItem k).
Proof. intros s H. exact H. Qed.
Lemma removeItem_keeps k : keeps_auth (StorageService.removeItem k).
Proof. intros s H. exact H. Qed.
Lemma fetch_keeps ep : keeps_auth (ApiService.fetch ep).
Proof. intros s H. unfold ApiService.fetch. by destruct (script s). Qed.
Lemma setToken_keeps t : keeps_auth (ApiService.setToken t).
Proof. intros s _. reflexivity. Qed.
Lemma clearToken_keeps : keeps_auth ApiService.clearToken.
Proof. intros s _. reflexivity. Qed.
Lemma clearAuthData_keeps : keeps_auth StorageService.clearAuthData.
Proof. intros s H. rewrite clearAuthData_eq. exact H. Qed.
Lemma isTokenExpired_keeps : keeps_auth StorageService.isTokenExpired.
Proof. intros s H. exact H. Qed.
Lemma storeExpiry24h_keeps : keeps_auth EnhancedApiService.storeExpiry24h.
Proof.
  intros s H. unfold EnhancedApiService.storeExpiry24h.
  by destruct (Z.abs (EnhancedApiService.expiry24h s) <=? EnhancedApiService.max_time)%Z.
Qed.
Lemma get_init_keeps : keeps_auth EnhancedApiService.get_init.
Proof. intros s H. exact H. Qed.
Lemma mark_init_keeps : keeps_auth EnhancedApiService.mark_init.
Proof. intros s H. exact H. Qed.

Lemma bind_keeps {A B} (m : M A) (k : A -> M B) :
  keeps_auth m -> (forall a, keeps_auth (k a)) -> keeps_auth (bind m k).
Proof.
  intros Hm Hk s H. unfold bind. specialize (Hm s H).
  destruct (m s) as [[a|e] s1]; simpl in *; [apply Hk|]; done.
Qed.

Lemma catch_keeps {A} (m : M A) (h : jserr -> M A) :
  keeps_auth m -> (forall e, keeps_auth (h e)) -> keeps_auth (catch_ m h).
Proof.
  intros Hm Hh s H. unfold catch_. specialize (Hm s H).
  destruct (m s) as [[a|e] s1]; simpl in *; [|apply Hh]; done.
Qed.

Lemma if_keeps {A} (b : bool) (m1 m2 : M A) :
  keeps_auth m1 -> keeps_auth m2 -> keeps_auth (if b then m1 else m2).
Proof. by destruct b. Qed.

#[local] Hint Resolve ret_keeps throw_keeps lift_keeps prop_keeps setItem_keeps getItem_keeps
  removeItem_keeps fetch_keeps setToken_keeps clearToken_keeps clearAuthData_keeps
  isTokenExpired_keeps storeExpiry24h_keeps get_init_keeps mark_init_keeps
  bind_keeps catch_keeps if_keeps : authdb.

Ltac keeps :=
  repeat match goal with
  | |- forall _, _ => intro
  | |- keeps_auth (bind _ _) => apply bind_keeps
  | |- keeps_auth (catch_ _ _) => apply catch_keeps
  | |- keeps_auth (if _ then _ else _) => apply if_keeps
  | |- keeps_auth _ => solve [auto with authdb]
  end.

Lemma api_request_keeps ep : keeps_auth (ApiService.request ep).
Proof.
  unfold ApiService.request. apply bind_keeps; [auto with authdb|].
  intros [status data|m]; auto with authdb.
Qed.

#[local] Hint Resolve api_request_keeps : authdb.

Lemma enhanced_refreshToken_keeps : keeps_auth EnhancedApiService.refreshToken.
Proof.
  unfold EnhancedApiService.refreshToken, ApiService.refreshToken, ApiService.success_and.
  keeps.
Qed.

#[local] Hint Resolve enhanced_refreshToken_keeps : authdb.

Lemma initialize_keeps : keeps_auth EnhancedApiService.initialize.
Proof. unfold EnhancedApiService.initialize. keeps. Qed.

Lemma logout_keeps : keeps_auth EnhancedApiService.logout.
Proof.
  unfold EnhancedApiService.logout, EnhancedApiService.logout_with, ApiService.logout.
  keeps.
Qed.

#[local] Hint Resolve initialize_keeps logout_keeps : authdb.

Lemma request_keeps ep o : keeps_auth (EnhancedApiService.request ep o).
Proof. unfold EnhancedApiService.request. keeps. Qed.

Lemma login_keeps : keeps_auth EnhancedApiService.login.
Proof.
  unfold EnhancedApiService.login, ApiService.login, ApiService.success_and.
  keeps.
Qed.

(** When [isAuthenticated] agrees with [!!token], it still agrees after
    [request], [login], [logout], [refreshToken] and [initialize]; then
    [isUserAuthenticated()] is exactly [!!token]. *)
Theorem auth_flag_consistent (s : St) (ep : string) (o : option bool) :
  auth_inv s ->
  auth_inv (snd (EnhancedApiService.request ep o s))
  /\ auth_inv (snd (EnhancedApiService.login s))
  /\ auth_inv (snd (EnhancedApiService.logout s))
  /\ auth_inv (snd (EnhancedApiService.refreshToken s))
  /\ auth_inv (snd (EnhancedApiService.initialize s))
  /\ ApiService.isUserAuthenticated s = truthy (api_token s).
Proof.
  intros H. split; [by apply request_keeps|]. split; [by apply login_keeps|].
  split; [by apply logout_keeps|]. split; [by apply enhanced_refreshToken_keeps|].
  split; [by apply initialize_keeps|].
  unfold ApiService.isUserAuthenticated. rewrite H. by destruct (truthy (api_token s)).
Qed.

Lemma auth_flag_consistent_witness :
  auth_inv (empty_state [Resp 401 JNull])
  /\ auth_inv (snd (EnhancedApiService.request "/user" None (empty_state [Resp 401 JNull])))
  /\ auth_inv (snd (EnhancedApiService.login (empty_state [Resp 401 JNull])))
  /\ auth_inv (snd (EnhancedApiService.logout (empty_state [Resp 401 JNull])))
  /\ auth_inv (snd (EnhancedApiService.refreshToken (empty_state [Resp 401 JNull])))
  /\ auth_inv (snd (EnhancedApiService.initialize (empty_state [Resp 401 JNull])))
  /\ ApiService.isUserAuthenticated (empty_state [Resp 401 JNull])
     = truthy (api_token (empty_state [Resp 401 JNull])).
Proof.
  assert (H : auth_inv (empty_state [Resp 401 JNull])) by reflexivity.
  split; [exact H|]. exact (auth_flag_consistent _ "/user" None H).
Defined.

(** ** Extra: login, initialize and refresh *)

Lemma api_request_frame (ep : string) (s : St) :
  store (snd (ApiService.request ep s)) = store s
  /\ api_token (snd (ApiService.request ep s)) = api_token s
  /\ api_auth (snd (ApiService.request ep s)) = api_auth s
  /\ is_init (snd (ApiService.request ep s)) = is_init s
  /\ now (snd (ApiService.request ep s)) = now s
  /\ zone (snd (ApiService.request ep s)) = zone s.
Proof.
  unfold ApiService.request, bind, ApiService.fetch.
  destruct (script s) as [|[status data|m] rest]; simpl; [done| |done].
  destruct (ApiService.response_ok status); simpl; [done|].
  by destruct (get_prop data "message").
Qed.

Lemma num_lt_inject_Z (a b : Z) :
  num_lt (NFin (inject_Z a)) (NFin (inject_Z b)) = (a <? b)%Z.
Proof.
  unfold num_lt. destruct (Qle_bool (inject_Z b) (inject_Z a)) eqn:E.
  - apply Qle_bool_iff in E. rewrite <- Zle_Qle in E. symmetry. apply Z.ltb_ge. exact E.
  - simpl. symmetry. apply Z.ltb_lt. apply Z.nle_gt. intros Hle.
    rewrite Zle_Qle in Hle. apply Qle_bool_iff in Hle. congruence.
Qed.

Lemma truthy_jint (z : Z) : truthy (jint z) = negb (z =? 0)%Z.
Proof.
  unfold jint, truthy. f_equal. destruct (Qeq_bool (inject_Z z) 0) eqn:E.
  - apply Qeq_bool_iff in E. symmetry. apply Z.eqb_eq. unfold Qeq in E. simpl in E. lia.
  - symmetry. apply Z.eqb_neq. intros ->. discriminate.
Qed.

Lemma api_login_spec (s s1 : St) (r t : jsval) :
  ApiService.login s = (Ok r, s1) ->
  ApiService.success_field r "token" = Ok t -> truthy t = true ->
  api_token s1 = t /\ api_auth s1 = true /\ store s1 = store s
  /\ now s1 = now s /\ zone s1 = zone s.
Proof.
  unfold ApiService.login, bind.
  pose proof (api_request_frame "/login" s) as (F1 & _ & _ & _ & F5 & F6).
  destruct (ApiService.request "/login" s) as [[r0|e] s0]; simpl in *; [|discriminate].
  unfold ApiService.success_and, lift.
  destruct (ApiService.success_field r0 "token") as [t0|e] eqn:Es; [|discriminate].
  destruct (truthy t0) eqn:Et0; unfold ApiService.setToken, ret; simpl;
    intros [= <- <-] Hs Ht; rewrite Es in Hs; injection Hs as <-; [|congruence].
  simpl. auto.
Qed.

(** After a [login()] whose response has a truthy [success] and a truthy
    [data.token], the token is stored and set on the API client, and the
    stored expiry is UTC(LocalTime(now) + 24 h): [isTokenExpired()] is
    false up to that instant and true after it (for an expiry after the
    epoch and in the Date range). In a zone with a fixed offset that
    instant is exactly 24 hours after the login; across a daylight-saving
    change it is not. *)
Theorem login_stores_session (s s' : St) (response t : jsval) :
  (0 < EnhancedApiService.expiry24h s <= EnhancedApiService.max_time)%Z ->
  EnhancedApiService.login s = (Ok response, s') ->
  ApiService.success_field response "token" = Ok t -> truthy t = true ->
  store s' !! StorageService.key_authToken = Some t
  /\ store s' !! StorageService.key_tokenExpiry
     = Some (jint (EnhancedApiService.expiry24h s))
  /\ api_token s' = t /\ api_auth s' = true
  /\ (forall t', fst (StorageService.isTokenExpired (advance_to t' s'))
                 = Ok (EnhancedApiService.expiry24h s <? t')%Z)
  /\ (forall c, (forall x, tz_offset (zone s) x = c) ->
                (forall l, tz_utc (zone s) l = l - c)%Z ->
                EnhancedApiService.expiry24h s = (now s + EnhancedApiService.day_ms)%Z).
Proof.
  intros Hexp. unfold EnhancedApiService.login, catch_, bind at 1.
  destruct (ApiService.login s) as [[r0|e] s1] eqn:El; [|unfold throw; discriminate].
  unfold bind at 1, ApiService.success_and, lift.
  destruct (ApiService.success_field r0 "token") as [t0|e] eqn:Es; [|unfold throw; discriminate].
  destruct (truthy t0) eqn:Et0.
  2:{ unfold bind, ret. intros [= <- <-] Hs Ht. congruence. }
  pose proof (api_login_spec s s1 r0 t0 El Es Et0) as (A1 & A2 & A3 & A4 & A5).
  (* [response.data] and [response.data.user] can be read *)
  assert (Hd : exists d, get_prop r0 "data" = Ok d /\ exists u, get_prop d "user" = Ok u).
  { unfold ApiService.success_field in Es.
    destruct (get_prop r0 "success") as [ok|e]; [|discriminate].
    destruct (truthy ok) eqn:Eok; [|injection Es as <-; congruence].
    destruct (get_prop r0 "data") as [d|e]; [|discriminate].
    exists d. split; [done|]. destruct d; simpl in Es |- *; try discriminate; eauto. }
  destruct Hd as (d & Hd & u & Hu).
  assert (Hx : (Z.abs (EnhancedApiService.expiry24h s) <=? EnhancedApiService.max_time)%Z = true)
    by (apply Z.leb_le; lia).
  unfold bind, StorageService.storeAuthToken, StorageService.setItem, prop, lift.
  rewrite Hd, Hu. unfold StorageService.storeUserProfile, StorageService.setItem,
    EnhancedApiService.storeExpiry24h, EnhancedApiService.expiry24h.
  simpl. rewrite A4, A5. fold (EnhancedApiService.expiry24h s). rewrite Hx.
  set (x := EnhancedApiService.expiry24h s) in *.
  unfold StorageService.storeTokenExpiry, StorageService.setItem, ret.
  simpl. intros [= <- <-] Hs Ht. rewrite Es in Hs. injection Hs as <-.
  simpl.
  split; [rewrite lookup_insert_ne by done; rewrite lookup_insert_ne by done;
          apply lookup_insert_eq|].
  split; [apply lookup_insert_eq|].
  split; [exact A1|]. split; [exact A2|].
  split.
  - intros t'. unfold StorageService.isTokenExpired, bind, StorageService.getItem, advance_to.
    simpl. rewrite lookup_insert_eq.
    assert (Hj : truthy (jint x) = true).
    { rewrite truthy_jint. destruct (Z.eqb_spec x 0); [lia|done]. }
    rewrite Hj, Hj. unfold jint. by rewrite num_lt_inject_Z.
  - intros c Hc Hu'. subst x. unfold EnhancedApiService.expiry24h.
    rewrite Hu', Hc. lia.
Qed.

Lemma isTokenExpired_set_token (s : St) (t : jsval) (a : bool) :
  StorageService.isTokenExpired (set_token t a s)
  = (fst (StorageService.isTokenExpired s), set_token t a s).
Proof. reflexivity. Qed.

(** A first [initialize()] with a stored truthy token that
    [isTokenExpired()] does not consider expired sets that token on the API
    client and marks the service initialized, without any request. *)
Theorem initialize_restores_session (s : St) (t : jsval) :
  is_init s = false ->
  store s !! StorageService.key_authToken = Some t -> truthy t = true ->
  fst (StorageService.isTokenExpired s) = Ok false ->
  EnhancedApiService.initialize s = (Ok true, set_init true (set_token t true s)).
Proof.
  intros Hi Hk Ht He.
  unfold EnhancedApiService.initialize, EnhancedApiService.get_init, bind at 1.
  rewrite Hi. unfold catch_, bind, StorageService.getAuthToken, StorageService.getItem.
  rewrite Hk, Ht, Ht. unfold ApiService.setToken. rewrite Ht, isTokenExpired_set_token, He.
  reflexivity.
Qed.

(** A first [initialize()] with no truthy token stored only marks the
    service initialized: no request, the API client's token untouched. *)
Theorem initialize_without_token (s : St) :
  is_init s = false ->
  (forall v, store s !! StorageService.key_authToken = Some v -> truthy v = false) ->
  EnhancedApiService.initialize s = (Ok true, set_init true s).
Proof.
  intros Hi Hk.
  unfold EnhancedApiService.initialize, EnhancedApiService.get_init, bind at 1.
  rewrite Hi. unfold catch_, bind, StorageService.getAuthToken, StorageService.getItem.
  destruct (store s !! StorageService.key_authToken) as [v|] eqn:E.
  - rewrite (Hk v eq_refl). reflexivity.
  - reflexivity.
Qed.

Lemma api_refreshToken_err_frame (s : St) (e : jserr) :
  fst (ApiService.refreshToken s) = Err e ->
  store (snd (ApiService.refreshToken s)) = store s
  /\ api_token (snd (ApiService.refreshToken s)) = api_token s
  /\ api_auth (snd (ApiService.refreshToken s)) = api_auth s.
Proof.
  unfold ApiService.refreshToken, bind.
  pose proof (api_request_frame "/refresh" s) as (F1 & F2 & F3 & _).
  destruct (ApiService.request "/refresh" s) as [[r0|e0] s0]; simpl in *; [|auto].
  unfold ApiService.success_and, lift.
  destruct (ApiService.success_field r0 "token") as [t0|e1]; simpl; [|auto].
  destruct (truthy t0); discriminate.
Qed.

(** When [apiService.refreshToken()] fails, [refreshToken()] rejects with
    the TypeError of [clearAuthData()] instead of the original error; the
    API client keeps its token and authentication flag, and only the auth
    and refresh tokens are removed from storage. *)
Theorem refresh_failure_keeps_token (s : St) (e : jserr) :
  fst (ApiService.refreshToken s) = Err e ->
  fst (EnhancedApiService.refreshToken s)
    = Err (ETypeError "this.removeTokenExpiry is not a function")
  /\ api_token (snd (EnhancedApiService.refreshToken s)) = api_token s
  /\ api_auth (snd (EnhancedApiService.refreshToken s)) = api_auth s
  /\ store (snd (EnhancedApiService.refreshToken s))
     = delete StorageService.key_refreshToken
         (delete StorageService.key_authToken (store s)).
Proof.
  intros H. pose proof (api_refreshToken_err_frame s e H) as (F1 & F2 & F3).
  assert (Eq : EnhancedApiService.refreshToken s
               = (Err (ETypeError "this.removeTokenExpiry is not a function"),
                  set_store (delete StorageService.key_refreshToken
                               (delete StorageService.key_authToken
                                  (store (snd (ApiService.refreshToken s)))))
                            (snd (ApiService.refreshToken s)))).
  { unfold EnhancedApiService.refreshToken, catch_, bind at 1.
    destruct (ApiService.refreshToken s) as [r0 s0]; simpl in H; subst r0.
    unfold bind. rewrite clearAuthData_eq. reflexivity. }
  rewrite Eq. simpl. rewrite F1. auto.
Qed.

(** ** Extra: profile updates and permission checks *)

(** After an [updateUserProfile()] whose response carries a truthy
    [data.user], [getUserProfile()] answers that user from the cache,
    without a request. *)
Theorem updateUserProfile_then_cached (s s1 : St) (response u : jsval) :
  EnhancedApiService.updateUserProfile s = (Ok response, s1) ->
  ApiService.success_field response "user" = Ok u -> truthy u = true ->
  EnhancedApiService.getUserProfile false s1
  = (Ok (EnhancedApiService.cached_envelope "user" u), s1).
Proof.
  unfold EnhancedApiService.updateUserProfile, bind at 1.
  destruct (EnhancedApiService.request "/user" None s) as [[r0|e] s2]; [|discriminate].
  unfold bind, ApiService.success_and, lift.
  destruct (ApiService.success_field r0 "user") as [u0|e] eqn:Es; [|discriminate].
  destruct (truthy u0) eqn:Eu0;
    unfold StorageService.storeUserProfile, StorageService.setItem, ret;
    intros [= <- <-] Hs Hu; rewrite Es in Hs; injection Hs as <-; [|congruence].
  unfold EnhancedApiService.getUserProfile, StorageService.getUserProfile,
    StorageService.getItem, bind. simpl. rewrite lookup_insert_eq, Eu0. simpl.
  by rewrite Eu0.
Qed.

(** [hasPermission], [hasAnyPermission] and [hasAllPermissions] never
    reject: any failure, network failure included, resolves to a boolean. *)
Theorem permission_checks_never_reject (s : St) (p : string) (ps : list string) :
  (exists b, fst (EnhancedApiService.hasPermission p s) = Ok b)
  /\ (exists b, fst (EnhancedApiService.hasAnyPermission ps s) = Ok b)
  /\ (exists b, fst (EnhancedApiService.hasAllPermissions ps s) = Ok b).
Proof.
  unfold EnhancedApiService.hasPermission, EnhancedApiService.hasAnyPermission,
    EnhancedApiService.hasAllPermissions, catch_.
  repeat split;
    match goal with |- context [match ?m s with _ => _ end] =>
      destruct (m s) as [[b|e] s']; simpl; eauto end.
Qed.

Lemma permission_checks_cached_eqs (s : St) (v : jsval) (p : string) (ps : list string) :
  store s !! StorageService.key_userPermissions = Some v -> truthy v = true ->
  EnhancedApiService.hasPermission p s
    = (Ok (match EnhancedApiService.includes_str v p with Ok b => b | Err _ => false end), s)
  /\ EnhancedApiService.hasAnyPermission ps s
    = (Ok (match EnhancedApiService.res_existsb (EnhancedApiService.includes_str v) ps with
           | Ok b => b | Err _ => false end), s)
  /\ EnhancedApiService.hasAllPermissions ps s
    = (Ok (match EnhancedApiService.res_forallb (EnhancedApiService.includes_str v) ps with
           | Ok b => b | Err _ => false end), s).
Proof.
  intros Hk Ht.
  unfold EnhancedApiService.hasPermission, EnhancedApiService.hasAnyPermission,
    EnhancedApiService.hasAllPermissions, EnhancedApiService.getUserPermissions,
    StorageService.getUserPermissions, StorageService.getItem, catch_, bind.
  rewrite Hk, Ht. simpl. rewrite Ht. simpl.
  repeat split; [destruct (EnhancedApiService.includes_str v p)
                |destruct (EnhancedApiService.res_existsb (EnhancedApiService.includes_str v) ps)
                |destruct (EnhancedApiService.res_forallb (EnhancedApiService.includes_str v) ps)];
    simpl; rewrite ?Ht; reflexivity.
Qed.

(** With truthy permissions cached, the three checks make no request and
    leave the state unchanged: they answer [includes] on the cached value
    (membership for an array, substring search for a string) and [false]
    where [includes] would throw; an empty list of permissions gives [false]
    for [hasAnyPermission] and [true] for [hasAllPermissions]. *)
Theorem permission_checks_cached (s : St) (v : jsval) (p : string) (ps : list string) :
  store s !! StorageService.key_userPermissions = Some v -> truthy v = true ->
  EnhancedApiService.hasPermission p s
    = (Ok (match EnhancedApiService.includes_str v p with Ok b => b | Err _ => false end), s)
  /\ EnhancedApiService.hasAnyPermission ps s
    = (Ok (match EnhancedApiService.res_existsb (EnhancedApiService.includes_str v) ps with
           | Ok b => b | Err _ => false end), s)
  /\ EnhancedApiService.hasAllPermissions ps s
    = (Ok (match EnhancedApiService.res_forallb (EnhancedApiService.includes_str v) ps with
           | Ok b => b | Err _ => false end), s).
Proof. apply permission_checks_cached_eqs. Qed.

Lemma includes_str_strings (perms : list string) (p : string) :
  EnhancedApiService.includes_str (JArr (map JStr perms)) p
  = Ok (AuthProvider.hasPermission perms p).
Proof.
  unfold EnhancedApiService.includes_str, AuthProvider.hasPermission. f_equal.
  induction perms as [|q perms IH]; simpl; [done|]. by rewrite IH.
Qed.

Lemma res_existsb_strings (perms ps : list string) :
  EnhancedApiService.res_existsb (EnhancedApiService.includes_str (JArr (map JStr perms))) ps
  = Ok (AuthProvider.hasAnyPermission perms ps).
Proof.
  unfold AuthProvider.hasAnyPermission.
  induction ps as [|q ps IH]; [done|]. cbn [EnhancedApiService.res_existsb existsb].
  rewrite includes_str_strings. by destruct (AuthProvider.hasPermission perms q).
Qed.

Lemma res_forallb_strings (perms ps : list string) :
  EnhancedApiService.res_forallb (EnhancedApiService.includes_str (JArr (map JStr perms))) ps
  = Ok (AuthProvider.hasAllPermissions perms ps).
Proof.
  unfold AuthProvider.hasAllPermissions.
  induction ps as [|q ps IH]; [done|]. cbn [EnhancedApiService.res_forallb forallb].
  rewrite includes_str_strings. by destruct (AuthProvider.hasPermission perms q).
Qed.

(** With an array of strings cached as the user's permissions, the
    service's permission checks answer as the AuthProvider's checks over
    that list, without a request. *)
Theorem permission_checks_agree (s : St) (perms : list string) (p : string)
    (ps : list string) :
  store s !! StorageService.key_userPermissions = Some (JArr (map JStr perms)) ->
  EnhancedApiService.hasPermission p s = (Ok (AuthProvider.hasPermission perms p), s)
  /\ EnhancedApiService.hasAnyPermission ps s
     = (Ok (AuthProvider.hasAnyPermission perms ps), s)
  /\ EnhancedApiService.hasAllPermissions ps s
     = (Ok (AuthProvider.hasAllPermissions perms ps), s).
Proof.
  intros Hk. destruct (permission_checks_cached_eqs s _ p ps Hk eq_refl) as (H1 & H2 & H3).
  rewrite H1, H2, H3, includes_str_strings, res_existsb_strings, res_forallb_strings.
  done.
Qed.

(** ** Extra: AnalyticsService *)

(** [registerEvent()] rejects exactly when the service holds no truthy
    device UUID, with the not-initialized error and no request; otherwise
    it always resolves (to the server's answer or to [null]). *)
Theorem registerEvent_rejects_only_uninitialized (a : AnalyticsService.ASt) (kw : jsval)
    (d : list (string * jsval)) (s : St) :
  (truthy (AnalyticsService.deviceUUID a) = false
   /\ AnalyticsService.registerEvent a kw d s = (Err AnalyticsService.not_initialized, s))
  \/ (truthy (AnalyticsService.deviceUUID a) = true
      /\ exists v, fst (AnalyticsService.registerEvent a kw d s) = Ok v).
Proof.
  unfold AnalyticsService.registerEvent.
  destruct (truthy (AnalyticsService.deviceUUID a)) eqn:E; simpl.
  - right. split; [done|]. unfold catch_.
    destruct (ApiService.registerAnalyticsEvent _ s) as [[v|e] s']; simpl; eauto.
  - left. split; reflexivity.
Qed.

Lemma assoc_cons (k k0 : string) (v0 : jsval) (fs : list (string * jsval)) :
  assoc k ((k0, v0) :: fs) = if bool_decide (k0 = k) then Some v0 else assoc k fs.
Proof.
  unfold assoc. simpl. case_decide as H; rewrite ?bool_decide_true, ?bool_decide_false by done;
    [done|]. by destruct (list_find _ fs) as [[i [k1 v1]]|].
Qed.

Lemma assoc_None (k : string) (fs : list (string * jsval)) :
  k ∉ fs.*1 -> assoc k fs = None.
Proof.
  induction fs as [|[k0 v0] fs IH]; intros Hk; [done|].
  rewrite assoc_cons. simpl in Hk. rewrite bool_decide_false by set_solver.
  apply IH. set_solver.
Qed.

Lemma assoc_Some (k : string) (fs : list (string * jsval)) :
  k ∈ fs.*1 -> exists x, assoc k fs = Some x.
Proof.
  induction fs as [|[k0 v0] fs IH]; intros Hk; [inversion Hk|].
  rewrite assoc_cons. case_bool_decide; [eauto|]. apply IH. simpl in Hk. set_solver.
Qed.

Lemma assoc_app_single (k k' : string) (v : jsval) (fs : list (string * jsval)) :
  assoc k (fs ++ [(k', v)])%list
  = match assoc k fs with Some x => Some x | None => if bool_decide (k' = k) then Some v else None end.
Proof.
  induction fs as [|[k0 v0] fs IH]; simpl.
  - rewrite assoc_cons. reflexivity.
  - rewrite !assoc_cons. destruct (bool_decide (k0 = k)); [done|]. exact IH.
Qed.

Lemma assoc_map_set (k k' : string) (v : jsval) (fs : list (string * jsval)) :
  assoc k (map (fun f => if String.eqb f.1 k' then (f.1, v) else f) fs)
  = if bool_decide (k = k') then match assoc k fs with Some _ => Some v | None => None end
    else assoc k fs.
Proof.
  induction fs as [|[k0 v0] fs IH]; simpl; [by case_bool_decide|].
  destruct (String.eqb_spec k0 k') as [->|Hne]; simpl; rewrite !assoc_cons, IH.
  - case_bool_decide; case_bool_decide; subst; done.
  - case_bool_decide; subst; [|done]. rewrite bool_decide_false by done. done.
Qed.

Lemma assoc_assign (k : string) (fs : list (string * jsval)) (kv : string * jsval) :
  assoc k (AnalyticsService.assign_field fs kv)
  = if bool_decide (k = kv.1) then Some kv.2 else assoc k fs.
Proof.
  destruct kv as [k' v]. unfold AnalyticsService.assign_field. simpl.
  case_bool_decide as Hin.
  - rewrite assoc_map_set. case_bool_decide; [subst|done].
    by destruct (assoc_Some k' fs Hin) as [x ->].
  - rewrite assoc_app_single. case_bool_decide; subst.
    + by rewrite assoc_None, bool_decide_true.
    + rewrite bool_decide_false by congruence. by destruct (assoc k fs).
Qed.

Lemma assoc_spread (k : string) (fs gs : list (string * jsval)) :
  NoDup gs.*1 ->
  assoc k (AnalyticsService.spread fs gs)
  = match assoc k gs with Some x => Some x | None => assoc k fs end.
Proof.
  unfold AnalyticsService.spread. revert fs.
  induction gs as [|[k0 v0] gs IH]; intros fs Hnd; [done|].
  simpl in Hnd |- *. apply NoDup_cons in Hnd as [Hk0 Hnd].
  rewrite IH by done. rewrite assoc_assign, assoc_cons. simpl.
  case_bool_decide; subst.
  - rewrite assoc_None by done. by rewrite bool_decide_true.
  - rewrite bool_decide_false by congruence. done.
Qed.

Lemma get_prop_obj (fs : list (string * jsval)) (k : string) :
  get_prop (JObj fs) k = Ok (match assoc k fs with Some x => x | None => JUndef end).
Proof. unfold get_prop, assoc. by destruct (list_find _ fs) as [[i [k1 v1]]|]. Qed.

Lemma event_payload_lookup (a : AnalyticsService.ASt) (kw : jsval)
    (d : list (string * jsval)) :
  NoDup d.*1 ->
  get_prop (JObj (AnalyticsService.event_payload a kw d)) "event_keyword"
    = Ok (match assoc "event_keyword" d with Some v => v | None => kw end)
  /\ get_prop (JObj (AnalyticsService.event_payload a kw d)) "device_uuid"
    = Ok (match assoc "device_uuid" d with Some v => v | None => AnalyticsService.deviceUUID a end).
Proof.
  intros Hnd. unfold AnalyticsService.event_payload. rewrite !get_prop_obj.
  rewrite !assoc_spread by (done || apply NoDup_singleton).
  split; destruct (assoc _ d); reflexivity.
Qed.

(** In the event sent by [registerEvent()], the [event_keyword] and
    [device_uuid] of [additionalData] win over the event keyword argument
    and the service's device UUID. *)
Theorem event_payload_overrides (a : AnalyticsService.ASt) (kw : jsval)
    (d : list (string * jsval)) :
  NoDup d.*1 ->
  get_prop (JObj (AnalyticsService.event_payload a kw d)) "event_keyword"
    = Ok (match assoc "event_keyword" d with Some v => v | None => kw end)
  /\ get_prop (JObj (AnalyticsService.event_payload a kw d)) "device_uuid"
    = Ok (match assoc "device_uuid" d with Some v => v | None => AnalyticsService.deviceUUID a end).
Proof. apply event_payload_lookup. Qed.

(** With a device UUID longer than 255 characters (not overridden by
    [additionalData]), [registerEvent()] resolves to [null] without sending
    anything. *)
Theorem registerEvent_long_uuid_null (a : AnalyticsService.ASt) (kw : jsval)
    (d : list (string * jsval)) (u : string) (s : St) :
  AnalyticsService.deviceUUID a = JStr u -> (255 < String.length u)%nat ->
  NoDup d.*1 -> "device_uuid" ∉ d.*1 ->
  AnalyticsService.registerEvent a kw d s = (Ok JNull, s).
Proof.
  intros Hu Hlen Hnd Hd.
  assert (Hp : get_prop (JObj (AnalyticsService.event_payload a kw d)) "device_uuid" = Ok (JStr u)).
  { destruct (event_payload_lookup a kw d Hnd) as [_ ->]. by rewrite assoc_None, Hu. }
  assert (Ht : truthy (JStr u) = true).
  { simpl. destruct u; [simpl in Hlen; lia|done]. }
  assert (Hgt : js_gt (jint (Z.of_nat (String.length u))) (NFin 255) = true).
  { unfold js_gt, jint. cbn [to_number]. change (NFin 255) with (NFin (inject_Z 255)).
    rewrite num_lt_inject_Z. apply Z.ltb_lt. lia. }
  assert (Hr : exists e, ApiService.registerAnalyticsEvent
                           (JObj (AnalyticsService.event_payload a kw d)) s = (Err e, s)).
  { unfold ApiService.registerAnalyticsEvent, ApiService.check_required, bind, prop, lift,
      ret, throw. rewrite Hp, Ht.
    destruct (get_prop (JObj (AnalyticsService.event_payload a kw d)) "event_keyword")
      as [k|e]; [|eauto].
    destruct (truthy k); [|eauto].
    change (get_prop (JStr u) "length") with (Ok (jint (Z.of_nat (String.length u)))).
    cbv beta iota. rewrite Hgt. eauto. }
  unfold AnalyticsService.registerEvent. rewrite Hu, Ht.
  cbv beta iota delta [negb catch_]. destruct Hr as [e ->]. reflexivity.
Qed.

(** ** Witnesses of the extra properties *)

Lemma validatePassword_too_short_witness :
  (String.length "Ab1!" < 8)%nat
  /\ ApiService.isValid (ApiService.validatePassword "Ab1!") = false
  /\ ApiService.d_minLength (ApiService.validatePassword "Ab1!") = false.
Proof.
  assert (H : (String.length "Ab1!" < 8)%nat) by (simpl; lia).
  split; [exact H|]. exact (validatePassword_too_short "Ab1!" H).
Defined.

Lemma validatePassword_append_witness :
  ApiService.isValid (ApiService.validatePassword "Passw0rd!") = true
  /\ ApiService.isValid (ApiService.validatePassword ("Passw0rd!" ++ " extra")) = true.
Proof.
  assert (H : ApiService.isValid (ApiService.validatePassword "Passw0rd!") = true)
    by reflexivity.
  split; [exact H|]. exact (validatePassword_append "Passw0rd!" " extra" H).
Defined.

Lemma role_checks_nested_witness :
  AuthProvider.isAdmin [AuthProvider.mkRole "admin" 4] = true
  /\ AuthProvider.isSectorAdmin [AuthProvider.mkRole "admin" 4] = true
  /\ AuthProvider.isPropertyOwner [AuthProvider.mkRole "admin" 4] = true.
Proof.
  assert (H : AuthProvider.isAdmin [AuthProvider.mkRole "admin" 4] = true) by reflexivity.
  destruct (role_checks_nested [AuthProvider.mkRole "admin" 4]) as (H1 & H2 & _).
  split; [exact H|]. split; [exact (H1 H)|exact (H2 (H1 H))].
Defined.

Lemma hasRole_level_bound_witness :
  AuthProvider.hasRole [AuthProvider.mkRole "owner" 2; AuthProvider.mkRole "admin" 4] "owner"
    = true
  /\ exists r, r ∈ [AuthProvider.mkRole "owner" 2; AuthProvider.mkRole "admin" 4]
       /\ AuthProvider.role_name r = "owner"
       /\ (AuthProvider.role_level r
           <= AuthProvider.getHighestRoleLevel
                [AuthProvider.mkRole "owner" 2; AuthProvider.mkRole "admin" 4])%Z.
Proof.
  assert (H : AuthProvider.hasRole [AuthProvider.mkRole "owner" 2; AuthProvider.mkRole "admin" 4]
                "owner" = true) by reflexivity.
  split; [exact H|]. exact (hasRole_level_bound _ "owner" H).
Defined.

Lemma login_stores_session_witness :
  (0 < EnhancedApiService.expiry24h (empty_state [Resp 200 login_ok_body])
     <= EnhancedApiService.max_time)%Z
  /\ store (snd (EnhancedApiService.login (empty_state [Resp 200 login_ok_body])))
       !! StorageService.key_authToken = Some (JStr "abc")
  /\ store (snd (EnhancedApiService.login (empty_state [Resp 200 login_ok_body])))
       !! StorageService.key_tokenExpiry
     = Some (jint (EnhancedApiService.expiry24h (empty_state [Resp 200 login_ok_body])))
  /\ api_token (snd (EnhancedApiService.login (empty_state [Resp 200 login_ok_body])))
     = JStr "abc"
  /\ api_auth (snd (EnhancedApiService.login (empty_state [Resp 200 login_ok_body]))) = true
  /\ (forall t', fst (StorageService.isTokenExpired
                        (advance_to t' (snd (EnhancedApiService.login
                                               (empty_state [Resp 200 login_ok_body])))))
                 = Ok (EnhancedApiService.expiry24h (empty_state [Resp 200 login_ok_body]) <? t')%Z)
  /\ (forall c, (forall x, tz_offset (zone (empty_state [Resp 200 login_ok_body])) x = c) ->
                (forall l, tz_utc (zone (empty_state [Resp 200 login_ok_body])) l = l - c)%Z ->
                EnhancedApiService.expiry24h (empty_state [Resp 200 login_ok_body])
                = (now (empty_state [Resp 200 login_ok_body]) + EnhancedApiService.day_ms)%Z).
Proof.
  assert (H0 : (0 < EnhancedApiService.expiry24h (empty_state [Resp 200 login_ok_body])
                  <= EnhancedApiService.max_time)%Z) by (vm_compute; split; congruence).
  split; [exact H0|].
  apply (login_stores_session (empty_state [Resp 200 login_ok_body])
           (snd (EnhancedApiService.login (empty_state [Resp 200 login_ok_body])))
           login_ok_body (JStr "abc") H0); reflexivity.
Defined.

Lemma initialize_restores_session_witness :
  EnhancedApiService.initialize (ConcurrentInit.g uninit_with_token)
  = (Ok true, set_init true (set_token (JStr "tok") true (ConcurrentInit.g uninit_with_token))).
Proof.
  apply (initialize_restores_session (ConcurrentInit.g uninit_with_token) (JStr "tok"));
    reflexivity.
Defined.

Lemma initialize_without_token_witness :
  EnhancedApiService.initialize (mkSt ∅ JNull false false 0 utc_zone [] [])
  = (Ok true, set_init true (mkSt ∅ JNull false false 0 utc_zone [] [])).
Proof.
  apply initialize_without_token; [reflexivity|].
  intros v Hv. discriminate Hv.
Defined.

Lemma refresh_failure_keeps_token_witness :
  fst (ApiService.refreshToken (session_state [Resp 500 (JObj [])])) = Err (EError "HTTP 500")
  /\ fst (EnhancedApiService.refreshToken (session_state [Resp 500 (JObj [])]))
     = Err (ETypeError "this.removeTokenExpiry is not a function")
  /\ api_token (snd (EnhancedApiService.refreshToken (session_state [Resp 500 (JObj [])])))
     = api_token (session_state [Resp 500 (JObj [])])
  /\ api_auth (snd (EnhancedApiService.refreshToken (session_state [Resp 500 (JObj [])])))
     = api_auth (session_state [Resp 500 (JObj [])])
  /\ store (snd (EnhancedApiService.refreshToken (session_state [Resp 500 (JObj [])])))
     = delete StorageService.key_refreshToken
         (delete StorageService.key_authToken (store (session_state [Resp 500 (JObj [])]))).
Proof.
  assert (H : fst (ApiService.refreshToken (session_state [Resp 500 (JObj [])]))
              = Err (EError "HTTP 500")) by reflexivity.
  split; [exact H|]. exact (refresh_failure_keeps_token _ _ H).
Defined.

Lemma updateUserProfile_then_cached_witness :
  EnhancedApiService.getUserProfile false
    (snd (EnhancedApiService.updateUserProfile (session_state [Resp 200 login_ok_body])))
  = (Ok (EnhancedApiService.cached_envelope "user" (JObj [("name", JStr "Ana")])),
     snd (EnhancedApiService.updateUserProfile (session_state [Resp 200 login_ok_body]))).
Proof.
  apply (updateUserProfile_then_cached (session_state [Resp 200 login_ok_body]) _
           login_ok_body); reflexivity.
Defined.

Lemma permission_checks_cached_witness :
  EnhancedApiService.hasPermission "users.read"
    (mkSt (<[StorageService.key_userPermissions := JArr [JStr "users.read"]]> ∅)
          JNull false true 0 utc_zone [] [])
  = (Ok true, mkSt (<[StorageService.key_userPermissions := JArr [JStr "users.read"]]> ∅)
                   JNull false true 0 utc_zone [] [])
  /\ EnhancedApiService.hasAnyPermission []
       (mkSt (<[StorageService.key_userPermissions := JArr [JStr "users.read"]]> ∅)
             JNull false true 0 utc_zone [] [])
     = (Ok false, mkSt (<[StorageService.key_userPermissions := JArr [JStr "users.read"]]> ∅)
                       JNull false true 0 utc_zone [] [])
  /\ EnhancedApiService.hasAllPermissions []
       (mkSt (<[StorageService.key_userPermissions := JArr [JStr "users.read"]]> ∅)
             JNull false true 0 utc_zone [] [])
     = (Ok true, mkSt (<[StorageService.key_userPermissions := JArr [JStr "users.read"]]> ∅)
                      JNull false true 0 utc_zone [] []).
Proof.
  apply (permission_checks_cached _ (JArr [JStr "users.read"])); reflexivity.
Defined.

Lemma event_payload_overrides_witness :
  get_prop (JObj (AnalyticsService.event_payload (analytics_with (JStr "dev-1"))
                    (JStr "new_session") [("event_keyword", JStr "other")])) "event_keyword"
    = Ok (JStr "other")
  /\ get_prop (JObj (AnalyticsService.event_payload (analytics_with (JStr "dev-1"))
                      (JStr "new_session") [("event_keyword", JStr "other")])) "device_uuid"
    = Ok (JStr "dev-1").
Proof.
  apply (event_payload_overrides (analytics_with (JStr "dev-1")) (JStr "new_session")
           [("event_keyword", JStr "other")]).
  apply NoDup_singleton.
Defined.

Lemma registerEvent_long_uuid_null_witness :
  AnalyticsService.registerEvent (analytics_with (JStr long_uuid)) (JStr "new_session") []
    (empty_state [Resp 200 ok_envelope])
  = (Ok JNull, empty_state [Resp 200 ok_envelope]).
Proof.
  apply (registerEvent_long_uuid_null _ _ _ long_uuid).
  - reflexivity.
  - vm_compute. lia.
  - apply NoDup_nil_2.
  - apply not_elem_of_nil.
Defined.

Lemma permission_checks_agree_witness :
  EnhancedApiService.hasPermission "b"
    (mkSt (<[StorageService.key_userPermissions := JArr (map JStr ["a"; "b"])]> ∅)
          JNull false true 0 utc_zone [] [])
  = (Ok (AuthProvider.hasPermission ["a"; "b"] "b"),
     mkSt (<[StorageService.key_userPermissions := JArr (map JStr ["a"; "b"])]> ∅)
          JNull false true 0 utc_zone [] [])
  /\ EnhancedApiService.hasAnyPermission ["c"; "a"]
       (mkSt (<[StorageService.key_userPermissions := JArr (map JStr ["a"; "b"])]> ∅)
             JNull false true 0 utc_zone [] [])
     = (Ok (AuthProvider.hasAnyPermission ["a"; "b"] ["c"; "a"]),
        mkSt (<[StorageService.key_userPermissions := JArr (map JStr ["a"; "b"])]> ∅)
             JNull false true 0 utc_zone [] [])
  /\ EnhancedApiService.hasAllPermissions ["c"; "a"]
       (mkSt (<[StorageService.key_userPermissions := JArr (map JStr ["a"; "b"])]> ∅)
             JNull false true 0 utc_zone [] [])
     = (Ok (AuthProvider.hasAllPermissions ["a"; "b"] ["c"; "a"]),
        mkSt (<[StorageService.key_userPermissions := JArr (map JStr ["a"; "b"])]> ∅)
             JNull false true 0 utc_zone [] []).
Proof. apply permission_checks_agree. reflexivity. Defined.
